(** * OneForAll, [common/resolve.py]: bulk resolution of sub-domain records

    A shallow embedding of the resolution helpers of [common/resolve.py]
    ([aiodns_query_a], [convert_results], [filter_subdomain],
    [update_data], [resolve_progress], [aio_query], [aio_resolve]) and the
    properties of the specification that concern them.

    Python data is modelled as follows.
    - A Python value that can sit in a record is a [pyval]; strings are
      sequences of code points below 256.
    - A database row (a [dict] with column names as keys) is a
      [gmap string pyval]; [d.get(k)] is [dict_get d k].
    - The three-key dictionary built by [convert_results] is the record
      [value_dict].
    - Exceptions are values of [py_exc]; code that can raise returns a
      [py_result].
    - The asynchronous functions run in a monad over a [world], the
      progress queue and the trace of what the batch started; the resolver
      of the operating system is a parameter, and the pool of
      [aiomultiprocess] is modelled by what its [map] promises, the
      results in the order of its input. *)

From stdpp Require Import gmap strings list pretty.
From Stdlib Require Import ZArith Ascii String.

Local Open Scope string_scope.
Set Warnings "-register-all".

(** ** Python values *)

Module Py.

Inductive pyval : Type :=
| PNone
| PInt (z : Z)
| PStr (s : string)
| PList (l : list pyval).

(** [bool(v)]: [None], [0], the empty string and the empty list are false. *)
Definition truthy (v : pyval) : bool :=
  match v with
  | PNone => false
  | PInt z => negb (z =? 0)%Z
  | PStr s => negb (String.eqb s "")
  | PList l => match l with [] => false | _ :: _ => true end
  end.

(** Exception classes. [KeyboardInterrupt], [SystemExit] and
    [GeneratorExit] derive from [BaseException] only; every other class
    here derives from [Exception]. *)
Inductive exc_class : Type :=
| KeyboardInterrupt
| SystemExit
| GeneratorExit
| TypeError
| OSError
| GaiError
| HError
| SocketTimeout
| OtherException (name : string).

Definition isinstance_Exception (c : exc_class) : bool :=
  match c with
  | KeyboardInterrupt | SystemExit | GeneratorExit => false
  | _ => true
  end.

(** Every class derives from [BaseException]. *)
Definition isinstance_BaseException (c : exc_class) : bool := true.

Record py_exc : Type := MkExc { exc_cls : exc_class; exc_args : list pyval }.

Inductive py_result (A : Type) : Type :=
| Return (a : A)
| Raise (e : py_exc).
Arguments Return {A} a.
Arguments Raise {A} e.

(** *** [repr] and [str] *)

Definition backslash : ascii := "092"%char.
Definition squote : ascii := "039"%char.
Definition dquote : ascii := "034"%char.

Definition hex_digit (n : nat) : ascii :=
  nth n (list_ascii_of_string "0123456789abcdef") "0"%char.

Definition hex2 (n : nat) : string :=
  String (hex_digit (n / 16)) (String (hex_digit (n mod 16)) EmptyString).

Fixpoint has_char (c : ascii) (s : string) : bool :=
  match s with
  | EmptyString => false
  | String c' s' => Ascii.eqb c c' || has_char c s'
  end.

(** [repr] of a string uses single quotes unless the string holds a single
    quote and no double quote. *)
Definition repr_quote (s : string) : ascii :=
  if has_char squote s && negb (has_char dquote s) then dquote else squote.

Definition repr_char (q c : ascii) : string :=
  let n := nat_of_ascii c in
  if Ascii.eqb c q || Ascii.eqb c backslash then String backslash (String c EmptyString)
  else if (n =? 9)%nat then String backslash "t"
  else if (n =? 10)%nat then String backslash "n"
  else if (n =? 13)%nat then String backslash "r"
  else if (n <? 32)%nat || (n =? 127)%nat then String backslash ("x" +:+ hex2 n)
  else if (n <? 127)%nat then String c EmptyString
  else if (n <=? 160)%nat || (n =? 173)%nat then String backslash ("x" +:+ hex2 n)
  else String c EmptyString.

Fixpoint repr_chars (q : ascii) (s : string) : string :=
  match s with
  | EmptyString => EmptyString
  | String c s' => repr_char q c +:+ repr_chars q s'
  end.

Definition py_repr_str (s : string) : string :=
  let q := repr_quote s in
  String q (repr_chars q s +:+ String q EmptyString).

(** [', '.join(l)] *)
Fixpoint join_comma (l : list string) : string :=
  match l with
  | [] => EmptyString
  | [x] => x
  | x :: l' => x +:+ ", " +:+ join_comma l'
  end.

Fixpoint py_repr (v : pyval) : string :=
  match v with
  | PNone => "None"
  | PInt z => pretty z
  | PStr s => py_repr_str s
  | PList l => "[" +:+ join_comma (map py_repr l) +:+ "]"
  end.

(** [str(t)] for a tuple [t], such as the [args] of an exception. *)
Definition py_str_tuple (t : list pyval) : string :=
  match t with
  | [] => "()"
  | [x] => "(" +:+ py_repr x +:+ ",)"
  | _ => "(" +:+ join_comma (map py_repr t) +:+ ")"
  end.

(** [s[1:-1]] *)
Definition slice_1_m1 (s : string) : string :=
  substring 1 (String.length s - 2) s.

End Py.
Export Py.

(** ** The functions of [common/resolve.py] *)

Module Resolve.

(** A row of the result table: a [dict] keyed by column name. The rows of
    one list are distinct objects (they are loaded one by one from the
    database), so updating one row leaves the others as they are. *)
Abbreviation record := (gmap string pyval).

(** [d.get(k)]: the value at [k], [None] when [k] is missing. *)
Definition dict_get (d : record) (k : string) : pyval := default PNone (d !! k).

(** [{'ips': ..., 'reason': ..., 'valid': ...}] *)
Record value_dict : Type := { ips : pyval; reason : pyval; valid : pyval }.

(** [data.update(value_dict)] *)
Definition dict_update (data : record) (v : value_dict) : record :=
  <["valid" := valid v]> (<["reason" := reason v]> (<["ips" := ips v]> data)).

(** What [socket.gethostbyname_ex] returns:
    [(hostname, aliaslist, ipaddrlist)]. *)
Definition host_tuple : Type := string * list string * list string.

(** The second component of a query result: the tuple returned by the
    resolver, the exception it raised, or any other value. *)
Inductive answer : Type :=
| AnsTuple (t : host_tuple)
| AnsExc (e : py_exc)
| AnsOther (v : pyval).

(** *** [convert_results] *)

(** One turn of the loop of [convert_results]. *)
Definition convert_step (result_dict : gmap string value_dict)
    (result : string * answer) : gmap string value_dict :=
  let '(hostname, answer) := result in
  let value_dict := {| ips := PNone; reason := PNone; valid := PNone |} in
  match answer with
  | AnsTuple (_, _, ipaddrlist) =>
      let value_dict :=
        {| ips := PStr (slice_1_m1 (py_repr (PList (map PStr ipaddrlist))));
           reason := reason value_dict; valid := valid value_dict |} in
      <[hostname := value_dict]> result_dict
  | AnsExc e =>
      if isinstance_Exception (exc_cls e) then
        let value_dict :=
          {| ips := ips value_dict;
             reason := PStr (py_str_tuple (exc_args e));
             valid := PInt 0 |} in
        <[hostname := value_dict]> result_dict
      else
        let value_dict :=
          {| ips := ips value_dict; reason := reason value_dict; valid := PInt 0 |} in
        <[hostname := value_dict]> result_dict
  | AnsOther _ =>
      let value_dict :=
        {| ips := ips value_dict; reason := reason value_dict; valid := PInt 0 |} in
      <[hostname := value_dict]> result_dict
  end.

Definition convert_results (result_list : list (string * answer)) : gmap string value_dict :=
  fold_left convert_step result_list ∅.

(** *** [filter_subdomain] *)

(** One turn of the loop of [filter_subdomain]. *)
Definition filter_step (subdomains : list pyval) (data : record) : list pyval :=
  if negb (truthy (dict_get data "ips")) then
    let subdomain := dict_get data "subdomain" in
    (subdomains ++ [subdomain])%list
  else subdomains.

Definition filter_subdomain (data_list : list record) : list pyval :=
  fold_left filter_step data_list [].

(** *** [update_data] *)

(** [results_dict.get(subdomain)]. The keys of [results_dict] are strings,
    so [None] and numbers are never found; a list cannot be hashed. *)
Definition results_get (results_dict : gmap string value_dict) (subdomain : pyval)
    : py_result (option value_dict) :=
  match subdomain with
  | PStr s => Return (results_dict !! s)
  | PList _ => Raise (MkExc TypeError [PStr "unhashable type: 'list'"])
  | PNone | PInt _ => Return None
  end.

(** [data.update(None)] raises this. *)
Definition update_None_error : py_exc :=
  MkExc TypeError [PStr "'NoneType' object is not iterable"].

(** The body of the loop of [update_data] on one record: the record as it
    is after the turn, or the exception raised (the record is then as it
    was). *)
Definition update_item (results_dict : gmap string value_dict) (data : record)
    : py_result record :=
  if negb (truthy (dict_get data "ips")) then
    let subdomain := dict_get data "subdomain" in
    match results_get results_dict subdomain with
    | Return (Some value_dict) => Return (dict_update data value_dict)
    | Return None => Raise update_None_error
    | Raise e => Raise e
    end
  else Return data.

(** [update_data] works on the caller's list in place. The result is the
    content of the list when the function exits, and the exception that
    ended the loop, if any; with [None] the function returned the list. *)
Fixpoint update_data (data_list : list record) (results_dict : gmap string value_dict)
    : list record * option py_exc :=
  match data_list with
  | [] => ([], None)
  | data :: rest =>
      match update_item results_dict data with
      | Return data' =>
          let '(rest', r) := update_data rest results_dict in (data' :: rest', r)
      | Raise e => (data :: rest, Some e)
      end
  end.

(** *** [resolve_progress] *)

(** The loop of [resolve_progress]. [qsize k] is what [pr_queue.qsize()]
    answers at poll number [k]. The result is the number of polls made
    when the loop breaks, [None] when it is still running after [fuel]
    polls. *)
Fixpoint resolve_progress_loop (qsize : nat -> nat) (total : nat) (polls fuel : nat)
    : option nat :=
  match fuel with
  | 0 => None
  | S fuel' =>
      let done := qsize polls in
      if (done =? total)%nat then Some (S polls)
      else resolve_progress_loop qsize total (S polls) fuel'
  end.

Definition resolve_progress (qsize : nat -> nat) (total : nat) (fuel : nat) : option nat :=
  resolve_progress_loop qsize total 0 fuel.

(** *** The asynchronous part *)

(** What the batch does to its surroundings. *)
Inductive event : Type :=
| EvLog (level : string) (args : list pyval)
| EvMonitorStarted (total : nat)
| EvPoolStarted (processes childconcurrency : Z)
| EvPoolClosed.

(** The progress queue and the trace of events so far. *)
Record world : Type := MkWorld { pr_queue : list Z; events : list event }.

Definition M (A : Type) : Type := world -> py_result A * world.

Definition ret {A} (a : A) : M A := fun w => (Return a, w).

Definition bind {A B} (c : M A) (k : A -> M B) : M B :=
  fun w =>
    match c w with
    | (Return a, w') => k a w'
    | (Raise e, w') => (Raise e, w')
    end.

Notation "'await' x <~ c 'in' k" := (bind c (fun x => k))
  (at level 10, x name, c at level 100, k at level 200).
Notation "'exec' c 'in' k" := (bind c (fun _ => k))
  (at level 10, c at level 100, k at level 200).

(** [try: body except cls as e: handler e] *)
Definition try_except {A} (body : M A) (catches : exc_class -> bool)
    (handler : py_exc -> M A) : M A :=
  fun w =>
    match body w with
    | (Return a, w') => (Return a, w')
    | (Raise e, w') => if catches (exc_cls e) then handler e w' else (Raise e, w')
    end.

Definition emit (ev : event) : M unit :=
  fun w => (Return tt, {| pr_queue := pr_queue w; events := (events w ++ [ev])%list |}).

(** Modelled from the spec: [config.logger] is not among the sources, and
    the specification leaves logging out of scope. [logger.log(level, args)]
    records its arguments and returns. *)
Definition logger_log (level : string) (args : list pyval) : M unit :=
  emit (EvLog level args).

(** [pr_queue = m.Queue()] *)
Definition new_queue : M unit :=
  fun w => (Return tt, {| pr_queue := []; events := events w |}).

(** [pr_queue.put(x)] *)
Definition queue_put (x : Z) : M unit :=
  fun w => (Return tt, {| pr_queue := (pr_queue w ++ [x])%list; events := events w |}).

(** [pool.map(f, l)] of [aiomultiprocess]: the results come back in the
    order of [l]. Here the tasks get done in the order of [l] too; the
    order in which they really get done changes the sizes of the queue
    seen in between and the order of the lines they log, not the results
    nor the queue at the end. [pool_map_concurrent] below takes that
    order as an argument. *)
Fixpoint pool_map {A B} (f : A -> M B) (l : list A) : M (list B) :=
  match l with
  | [] => ret []
  | x :: l' => await y <~ f x in await ys <~ pool_map f l' in ret (y :: ys)
  end.

(** [async with aiomp.Pool(processes=p, childconcurrency=c) as pool: body].
    The pool starts its worker processes when it is created and is closed
    when the block is left, also by an exception. *)
Definition with_pool {A} (processes childconcurrency : Z) (body : M A) : M A :=
  fun w =>
    match emit (EvPoolStarted processes childconcurrency) w with
    | (_, w1) =>
        match body w1 with
        | (r, w2) => (r, snd (emit EvPoolClosed w2))
        end
    end.

Section Resolver.

(** The resolver of the operating system as it answers during the batch:
    what the body of the [try] of [aiodns_query_a] does for a hostname,
    either the tuple of [socket.gethostbyname_ex] or the exception that
    came up (a resolver error, a timeout, an interrupt). *)
Variable gethostbyname_ex : string -> py_result host_tuple.

Definition run_in_executor_gethostbyname_ex (hostname : string) : M host_tuple :=
  fun w => (gethostbyname_ex hostname, w).

Definition aiodns_query_a (hostname : string) : M (string * answer) :=
  await answer <~
    try_except
      (await t <~ run_in_executor_gethostbyname_ex hostname in ret (AnsTuple t))
      isinstance_BaseException
      (fun e => exec logger_log "TRACE" (exc_args e) in ret (AnsExc e)) in
  ret (hostname, answer).

Definition aio_query (hostname : string) : M (string * answer) :=
  await results <~ aiodns_query_a hostname in
  exec queue_put 1 in
  ret results.

Definition aio_resolve (subdomain_list : list string) (process_num coroutine_num : Z)
    : M (list (string * answer)) :=
  exec new_queue in
  exec emit (EvMonitorStarted (List.length subdomain_list)) in
  with_pool process_num coroutine_num
    (await results <~ pool_map aio_query subdomain_list in ret results).

End Resolver.

(** *** Vocabulary used to state the properties *)

(** The test of [filter_subdomain] and [update_data]: [not data.get('ips')]. *)
Definition pending (data : record) : bool := negb (truthy (dict_get data "ips")).

(** [data.get('subdomain')] *)
Definition name_of (data : record) : pyval := dict_get data "subdomain".

(** [isinstance(answer, tuple)] and [isinstance(answer, Exception)] *)
Definition is_tuple (a : answer) : bool :=
  match a with AnsTuple _ => true | _ => false end.

Definition is_exception (a : answer) : bool :=
  match a with AnsExc e => isinstance_Exception (exc_cls e) | _ => false end.

(** The dictionary that [convert_results] stores for an answer, read off
    the three branches of its loop (see [convert_step_insert]). *)
Definition value_of_answer (a : answer) : value_dict :=
  match a with
  | AnsTuple (_, _, ipaddrlist) =>
      {| ips := PStr (slice_1_m1 (py_repr (PList (map PStr ipaddrlist))));
         reason := PNone; valid := PNone |}
  | AnsExc e =>
      if isinstance_Exception (exc_cls e)
      then {| ips := PNone; reason := PStr (py_str_tuple (exc_args e)); valid := PInt 0 |}
      else {| ips := PNone; reason := PNone; valid := PInt 0 |}
  | AnsOther _ => {| ips := PNone; reason := PNone; valid := PInt 0 |}
  end.

(** The answer of a query for a hostname, given how the resolver behaves. *)
Definition answer_of (gethostbyname_ex : string -> py_result host_tuple)
    (hostname : string) : answer :=
  match gethostbyname_ex hostname with
  | Return t => AnsTuple t
  | Raise e => AnsExc e
  end.

Definition is_monitor_start (ev : event) : bool :=
  match ev with EvMonitorStarted _ => true | _ => false end.

Definition is_pool_start (ev : event) : bool :=
  match ev with EvPoolStarted _ _ => true | _ => false end.

(** Has the monitor loop been started, has a pool of workers been started? *)
Definition monitor_started (w : world) : bool := existsb is_monitor_start (events w).
Definition workers_started (w : world) : bool := existsb is_pool_start (events w).

End Resolve.
Export Resolve.

(** ** The scenarios of the specification, as data *)

Module Scenario.

Definition rec_a : record :=
  {[ "subdomain" := PStr "a.example.com"; "ips" := PNone ]}.

Definition rec_b : record :=
  {[ "subdomain" := PStr "b.example.com" ]}.

(** A record resolved before the batch starts. *)
Definition rec_resolved : record :=
  {[ "subdomain" := PStr "c.example.com"; "ips" := PStr "'9.9.9.9'" ]}.

(** A record whose [ips] is the empty string. *)
Definition rec_empty : record :=
  {[ "subdomain" := PStr "e.example.com"; "ips" := PStr "" ]}.

(** [a] resolves to [1.2.3.4], everything else fails with [gaierror]. *)
Definition resolver_a (hostname : string) : py_result host_tuple :=
  if String.eqb hostname "a.example.com" then Return (hostname, [], ["1.2.3.4"])
  else Raise (MkExc GaiError [PInt (-2); PStr "Name or service not known"]).

(** [a] resolved to [1.2.3.4], [b] timed out. *)
Definition outcomes_ab : list (string * answer) :=
  [ ("a.example.com", AnsTuple ("a.example.com", [], ["1.2.3.4"]));
    ("b.example.com", AnsExc (MkExc SocketTimeout [PStr "timed out"])) ].

(** An outcome map with an entry for the record resolved before. *)
Definition results_c : gmap string value_dict :=
  {[ "c.example.com" := {| ips := PStr "'1.1.1.1'"; reason := PNone; valid := PNone |};
     "e.example.com" := {| ips := PStr "'2.2.2.2'"; reason := PNone; valid := PNone |} ]}.

Definition world0 : world := MkWorld [] [].

End Scenario.

(** ** Further vocabulary *)

(** A character that [repr] prints as it is between single quotes: a
    printable ASCII character other than the single quote and the
    backslash. The characters of an address are of this kind. *)
Definition plain_char (c : ascii) : bool :=
  let n := nat_of_ascii c in
  (32 <=? n)%nat && (n <? 127)%nat
  && negb (Ascii.eqb c squote) && negb (Ascii.eqb c backslash).

Fixpoint plain (s : string) : bool :=
  match s with
  | EmptyString => true
  | String c s' => plain_char c && plain s'
  end.

(** The lines that the queries of a batch log: one at level TRACE for
    each hostname whose query ended in an exception, in the order of the
    list. *)
Definition failure_logs (gethostbyname_ex : string -> py_result host_tuple)
    (subdomain_list : list string) : list event :=
  flat_map
    (fun h =>
       match gethostbyname_ex h with
       | Return _ => []
       | Raise e => [EvLog "TRACE" (exc_args e)]
       end)
    subdomain_list.

(** The columns that [update_data] writes. *)
Definition written_column (k : string) : bool :=
  String.eqb k "ips" || String.eqb k "reason" || String.eqb k "valid".

(** Data for the examples of the further properties. *)
Module Scenario2.

(** A pending record with no [subdomain] column. *)
Definition rec_nameless : record := {[ "ips" := PNone; "port" := PInt 80 ]}.

(** A record of an earlier failed run. *)
Definition rec_failed : record :=
  {[ "subdomain" := PStr "b.example.com"; "ips" := PNone;
     "reason" := PStr "('timed out',)"; "valid" := PInt 0; "port" := PInt 443 ]}.

(** [a] resolved twice, with different answers. *)
Definition outcomes_dup : list (string * answer) :=
  [ ("a.example.com", AnsTuple ("a.example.com", [], ["1.2.3.4"]));
    ("b.example.com", AnsExc (MkExc SocketTimeout [PStr "timed out"]));
    ("a.example.com", AnsExc (MkExc GaiError [PInt (-2); PStr "Name or service not known"])) ].

(** A queue that grows by one item at each poll. *)
Definition growing_queue (k : nat) : nat := k.

End Scenario2.

(** ** The pool with the order in which the tasks finish *)

(** The tasks of a pool run concurrently. [finished] lists the positions
    of [l] in the order in which the tasks get done; [run_tasks] runs the
    task of each position of [finished] that is a position of [l], in
    that order, and pairs each result with its position. *)
Fixpoint run_tasks {A B} (f : A -> M B) (l : list A) (finished : list nat)
    : M (list (nat * B)) :=
  match finished with
  | [] => ret []
  | i :: rest =>
      match l !! i with
      | Some x =>
          await y <~ f x in await ys <~ run_tasks f l rest in ret ((i, y) :: ys)
      | None => run_tasks f l rest
      end
  end.

(** The result of the task of position [i], if it is done. *)
Definition result_at {B} (done : list (nat * B)) (i : nat) : option B :=
  snd <$> List.find (fun p => (fst p =? i)%nat) done.

(** [pool.map(f, l)] with the order of completion made explicit: the
    effects of the tasks happen in the order [finished], the results come
    back in the order of [l]. *)
Definition pool_map_concurrent {A B} (f : A -> M B) (l : list A) (finished : list nat)
    : M (list B) :=
  await done <~ run_tasks f l finished in
  ret (omap (result_at done) (seq 0 (List.length l))).

(** [aio_resolve] with the order of completion of its queries made
    explicit. *)
Definition aio_resolve_concurrent (gethostbyname_ex : string -> py_result host_tuple)
    (finished : list nat) (subdomain_list : list string) (process_num coroutine_num : Z)
    : M (list (string * answer)) :=
  exec new_queue in
  exec emit (EvMonitorStarted (List.length subdomain_list)) in
  with_pool process_num coroutine_num
    (await results <~
       pool_map_concurrent (aio_query gethostbyname_ex) subdomain_list finished in
     ret results).

(** The hostnames of [l] in the order [finished]. *)
Definition in_order_of (l : list string) (finished : list nat) : list string :=
  omap (fun i => l !! i) finished.

Module Scenario3.

(** A query interrupted from the keyboard. *)
Definition resolver_interrupted (hostname : string) : py_result host_tuple :=
  Raise (MkExc KeyboardInterrupt []).

(** [b] is unknown, every other name times out. *)
Definition resolver_failing (hostname : string) : py_result host_tuple :=
  if String.eqb hostname "b.example.com"
  then Raise (MkExc GaiError [PInt (-2); PStr "Name or service not known"])
  else Raise (MkExc SocketTimeout [PStr "timed out"]).

End Scenario3.

(** * Properties *)

(** ** Python strings *)


Example repr_ip : py_repr (PList [PStr "1.2.3.4"; PStr "5.6.7.8"]) = "['1.2.3.4', '5.6.7.8']".
Proof. vm_compute. reflexivity. Qed.

Example slice_ip : slice_1_m1 (py_repr (PList [PStr "1.2.3.4"; PStr "5.6.7.8"])) = "'1.2.3.4', '5.6.7.8'".
Proof. vm_compute. reflexivity. Qed.

Example slice_short : slice_1_m1 "a" = "" /\ slice_1_m1 "" = "" /\ slice_1_m1 "ab" = "" /\ slice_1_m1 "abc" = "b".
Proof. vm_compute. auto. Qed.

Example str_args_gaierror :
  py_str_tuple [PInt (-2); PStr "Name or service not known"] = "(-2, 'Name or service not known')".
Proof. vm_compute. reflexivity. Qed.

Example str_args_timeout : py_str_tuple [PStr "timed out"] = "('timed out',)".
Proof. vm_compute. reflexivity. Qed.

Example repr_with_quote : py_repr_str "it's" = String dquote ("it's" +:+ String dquote EmptyString).
Proof. vm_compute. reflexivity. Qed.

Example repr_control : py_repr_str (String "010"%char "a") = String squote (String backslash "na'").
Proof. vm_compute. reflexivity. Qed.

Lemma substring_0_append (s t : string) :
  substring 0 (String.length s) (s +:+ t) = s.
Proof.
  induction s as [|c s IH]; simpl.
  - destruct t; reflexivity.
  - f_equal. exact IH.
Qed.

Lemma length_append_1 (s : string) (c : ascii) :
  String.length (s +:+ String c EmptyString) = S (String.length s).
Proof. induction s as [|c' s IH]; simpl; [reflexivity | by rewrite IH]. Qed.

(** Stripping the brackets of a rendered list leaves what is between them. *)
Lemma slice_1_m1_brackets (s : string) : slice_1_m1 ("[" +:+ s +:+ "]") = s.
Proof.
  change ("[" +:+ s +:+ "]") with (String "[" (s +:+ String "]" EmptyString)).
  unfold slice_1_m1.
  change (String.length (String "[" (s +:+ String "]" EmptyString)))
    with (S (String.length (s +:+ String "]" EmptyString))).
  rewrite length_append_1.
  replace (S (S (String.length s)) - 2) with (String.length s) by lia.
  change (substring 1 (String.length s) (String "[" (s +:+ String "]" EmptyString)))
    with (substring 0 (String.length s) (s +:+ String "]" EmptyString)).
  apply substring_0_append.
Qed.

Lemma map_repr_PStr (l : list string) : map py_repr (map PStr l) = map py_repr_str l.
Proof. induction l as [|x l IH]; simpl; [reflexivity | by rewrite IH]. Qed.

(** [str(l)[1:-1]] for a list of strings [l]. *)
Lemma slice_repr_list (l : list string) :
  slice_1_m1 (py_repr (PList (map PStr l))) = join_comma (map py_repr_str l).
Proof. cbn [py_repr]. rewrite slice_1_m1_brackets. by rewrite map_repr_PStr. Qed.

(** ** [filter_subdomain] *)

Section FilterSubdomain.

Implicit Types (data : record) (data_list : list record).

Lemma filter_fold_acc data_list (acc : list pyval) :
  fold_left filter_step data_list acc = (acc ++ fold_left filter_step data_list [])%list.
Proof.
  revert acc. induction data_list as [|data rest IH]; intros acc; simpl.
  - by rewrite app_nil_r.
  - rewrite IH. rewrite (IH (filter_step [] data)).
    unfold filter_step. destruct (negb _); simpl; [by rewrite <- app_assoc | done].
Qed.

Lemma filter_subdomain_cons data data_list :
  filter_subdomain (data :: data_list) =
  if pending data then name_of data :: filter_subdomain data_list
  else filter_subdomain data_list.
Proof.
  unfold filter_subdomain. simpl.
  rewrite filter_fold_acc. unfold filter_step, pending, name_of.
  destruct (negb _); reflexivity.
Qed.

Lemma filter_subdomain_nil : filter_subdomain [] = [].
Proof. reflexivity. Qed.

Lemma filter_subdomain_app (l1 l2 : list record) :
  filter_subdomain (l1 ++ l2) = (filter_subdomain l1 ++ filter_subdomain l2)%list.
Proof.
  induction l1 as [|data l1 IH]; [reflexivity|].
  rewrite <- app_comm_cons, !filter_subdomain_cons, IH.
  destruct (pending data); reflexivity.
Qed.

Lemma filter_subdomain_map_filter data_list :
  filter_subdomain data_list = map name_of (List.filter pending data_list).
Proof.
  induction data_list as [|data rest IH]; [reflexivity|].
  rewrite filter_subdomain_cons. simpl. destruct (pending data); simpl; by rewrite IH.
Qed.

Lemma filter_subdomain_from_pending data_list (n : pyval) :
  n ∈ filter_subdomain data_list ->
  exists data, data ∈ data_list /\ pending data = true /\ name_of data = n.
Proof.
  rewrite filter_subdomain_map_filter. intros Hn.
  apply list_elem_of_In, in_map_iff in Hn as (data & Hname & Hin).
  apply filter_In in Hin as [Hin Hp].
  exists data. split; [by apply list_elem_of_In | done].
Qed.

(** With distinct names, two records of the list with one name are one
    record. *)
Lemma name_of_inj_NoDup data_list data1 data2 :
  NoDup (map name_of data_list) ->
  data1 ∈ data_list -> data2 ∈ data_list ->
  name_of data1 = name_of data2 -> data1 = data2.
Proof.
  induction data_list as [|data rest IH]; intros Hnd H1 H2 Heq.
  - by apply not_elem_of_nil in H1.
  - simpl in Hnd. apply NoDup_cons in Hnd as [Hfresh Hnd].
    apply elem_of_cons in H1 as [->|H1]; apply elem_of_cons in H2 as [->|H2].
    + reflexivity.
    + exfalso. apply Hfresh. rewrite Heq.
      apply list_elem_of_In, in_map, list_elem_of_In, H2.
    + exfalso. apply Hfresh. rewrite <- Heq.
      apply list_elem_of_In, in_map, list_elem_of_In, H1.
    + by apply IH.
Qed.

Lemma populated_name_not_selected data_list data :
  NoDup (map name_of data_list) ->
  data ∈ data_list -> pending data = false ->
  name_of data ∉ filter_subdomain data_list.
Proof.
  intros Hnd Hin Hp Hsel.
  apply filter_subdomain_from_pending in Hsel as (data' & Hin' & Hp' & Hname).
  assert (data' = data) as -> by (eapply name_of_inj_NoDup; eauto).
  congruence.
Qed.

End FilterSubdomain.

(** ** [update_data] *)

Section UpdateData.

Implicit Types (data : record) (data_list : list record).
Implicit Types (results_dict : gmap string value_dict) (v : value_dict).

Lemma update_item_populated results_dict data :
  pending data = false -> update_item results_dict data = Return data.
Proof. unfold update_item, pending. by intros ->. Qed.

Lemma update_item_found results_dict data v :
  pending data = true ->
  results_get results_dict (name_of data) = Return (Some v) ->
  update_item results_dict data = Return (dict_update data v).
Proof. unfold update_item, pending, name_of. by intros -> ->. Qed.


Lemma update_item_raise_pending results_dict data e :
  update_item results_dict data = Raise e -> pending data = true.
Proof.
  unfold update_item. fold (pending data). by destruct (pending data).
Qed.

(** The update writes the columns [ips], [reason] and [valid] only. *)
Lemma name_of_dict_update data v : name_of (dict_update data v) = name_of data.
Proof.
  unfold name_of, dict_get, dict_update. by rewrite !lookup_insert_ne.
Qed.

Lemma ips_dict_update data v : dict_get (dict_update data v) "ips" = ips v.
Proof.
  unfold dict_get, dict_update.
  rewrite !lookup_insert_ne by done. by rewrite lookup_insert_eq.
Qed.

Lemma written_column_false (k : string) :
  written_column k = false -> k <> "ips" /\ k <> "reason" /\ k <> "valid".
Proof.
  unfold written_column. intros H.
  apply orb_false_iff in H as [H Hvalid]. apply orb_false_iff in H as [Hips Hreason].
  by rewrite !String.eqb_neq in *.
Qed.

Lemma dict_update_other data v (k : string) :
  written_column k = false -> dict_update data v !! k = data !! k.
Proof.
  intros (Hips & Hreason & Hvalid)%written_column_false.
  unfold dict_update. by rewrite !lookup_insert_ne.
Qed.

Lemma dict_update_written data v :
  dict_get (dict_update data v) "ips" = ips v
  /\ dict_get (dict_update data v) "reason" = reason v
  /\ dict_get (dict_update data v) "valid" = valid v.
Proof.
  unfold dict_get, dict_update. repeat split.
  - rewrite !lookup_insert_ne by done. by rewrite lookup_insert_eq.
  - rewrite lookup_insert_ne by done. by rewrite lookup_insert_eq.
  - by rewrite lookup_insert_eq.
Qed.

Lemma dict_update_idem data v : dict_update (dict_update data v) v = dict_update data v.
Proof.
  apply map_eq. intros k. unfold dict_update.
  rewrite !lookup_insert. repeat case_decide; done.
Qed.

(** A record that went through one turn of the loop is not changed by a
    second turn with the same results. *)
Lemma update_item_idem results_dict data data' :
  update_item results_dict data = Return data' ->
  update_item results_dict data' = Return data'.
Proof.
  unfold update_item. fold (pending data) (pending data') (name_of data) (name_of data').
  destruct (pending data) eqn:Hp.
  - destruct (results_get results_dict (name_of data)) as [[v|]|e] eqn:Hget; try done.
    intros Heq. assert (data' = dict_update data v) as -> by congruence.
    rewrite name_of_dict_update, Hget, dict_update_idem.
    destruct (pending (dict_update data v)); reflexivity.
  - intros Heq. assert (data' = data) as -> by congruence. by rewrite Hp.
Qed.

(** What a turn of the loop that raised nothing did to the record. *)
Lemma update_item_return_inv results_dict data data' :
  update_item results_dict data = Return data' ->
  if pending data
  then exists v, results_get results_dict (name_of data) = Return (Some v)
                 /\ data' = dict_update data v
  else data' = data.
Proof.
  unfold update_item. fold (pending data) (name_of data).
  destruct (pending data).
  - destruct (results_get results_dict (name_of data)) as [[v|]|e]; try done.
    intros Heq. exists v. split; [done | congruence].
  - congruence.
Qed.

Lemma update_data_cons_return results_dict data data' rest :
  update_item results_dict data = Return data' ->
  update_data (data :: rest) results_dict =
  (data' :: fst (update_data rest results_dict), snd (update_data rest results_dict)).
Proof. simpl. intros ->. by destruct (update_data rest results_dict). Qed.

Lemma update_data_cons_raise results_dict data e rest :
  update_item results_dict data = Raise e ->
  update_data (data :: rest) results_dict = (data :: rest, Some e).
Proof. simpl. by intros ->. Qed.

Lemma update_data_length data_list results_dict :
  List.length (fst (update_data data_list results_dict)) = List.length data_list.
Proof.
  induction data_list as [|data rest IH]; [reflexivity|].
  destruct (update_item results_dict data) as [data'|e] eqn:Hitem.
  - rewrite (update_data_cons_return _ _ _ _ Hitem). simpl. by rewrite IH.
  - by rewrite (update_data_cons_raise _ _ _ _ Hitem).
Qed.

(** The loop over [l1 ++ l2]: when it gets through [l1] it goes on with
    [l2]; when it stops in [l1], [l2] is left as it is. *)
Lemma update_data_app (l1 l2 : list record) results_dict :
  update_data (l1 ++ l2) results_dict =
  match update_data l1 results_dict with
  | (l1', None) =>
      ((l1' ++ fst (update_data l2 results_dict))%list, snd (update_data l2 results_dict))
  | (l1', Some e) => ((l1' ++ l2)%list, Some e)
  end.
Proof.
  induction l1 as [|data l1 IH].
  - simpl. by destruct (update_data l2 results_dict).
  - rewrite <- app_comm_cons.
    destruct (update_item results_dict data) as [data'|e] eqn:Hitem.
    + rewrite !(update_data_cons_return _ _ _ _ Hitem), IH.
      destruct (update_data l1 results_dict) as [l1' [e|]]; reflexivity.
    + by rewrite !(update_data_cons_raise _ _ _ _ Hitem).
Qed.

(** When the loop got through the whole list, every record was found. *)
Lemma update_data_no_raise data_list results_dict :
  (forall data, data ∈ data_list -> pending data = true ->
     exists v, results_get results_dict (name_of data) = Return (Some v)) ->
  snd (update_data data_list results_dict) = None.
Proof.
  induction data_list as [|data rest IH]; intros Hall; [reflexivity|].
  assert (exists data', update_item results_dict data = Return data') as [data' Hitem].
  { destruct (pending data) eqn:Hp.
    - destruct (Hall data) as [v Hv]; [left | done |].
      eexists. by apply update_item_found.
    - eexists. by apply update_item_populated. }
  rewrite (update_data_cons_return _ _ _ _ Hitem). simpl.
  apply IH. intros d Hd. apply Hall. by right.
Qed.

End UpdateData.

(** ** The claims on [filter_subdomain] and [update_data] *)

(** C5. [filter_subdomain] returns, in the order of the list, exactly the
    names of the records whose [ips] is not populated (not truthy): its
    result is the list of names of the pending records; every name it
    returns is the name of a pending record of the list; a populated
    record adds nothing to the result; and when the names of the list are
    distinct, the name of a populated record is not in the result. *)
Theorem filter_subdomain_pending_names (data_list : list record) :
  filter_subdomain data_list = map name_of (List.filter pending data_list)
  /\ (forall n, n ∈ filter_subdomain data_list ->
        exists data, data ∈ data_list /\ pending data = true /\ name_of data = n)
  /\ (forall l1 data l2, data_list = (l1 ++ data :: l2)%list -> pending data = false ->
        filter_subdomain data_list = filter_subdomain (l1 ++ l2))
  /\ (NoDup (map name_of data_list) ->
      forall data, data ∈ data_list -> pending data = false ->
        name_of data ∉ filter_subdomain data_list).
Proof.
  split; [apply filter_subdomain_map_filter|].
  split; [apply filter_subdomain_from_pending|].
  split.
  - intros l1 data l2 -> Hp.
    rewrite !filter_subdomain_app, filter_subdomain_cons. by rewrite Hp.
  - intros Hnd data Hin Hp. by apply populated_name_not_selected.
Qed.

Lemma filter_subdomain_pending_names_witness :
  filter_subdomain [Scenario.rec_a; Scenario.rec_resolved; Scenario.rec_b] =
    [PStr "a.example.com"; PStr "b.example.com"]
  /\ PStr "c.example.com" ∉
       filter_subdomain [Scenario.rec_a; Scenario.rec_resolved; Scenario.rec_b].
Proof.
  destruct (filter_subdomain_pending_names
              [Scenario.rec_a; Scenario.rec_resolved; Scenario.rec_b])
    as (Heq & _ & _ & Hnot).
  split.
  - rewrite Heq. reflexivity.
  - change (PStr "c.example.com") with (name_of Scenario.rec_resolved).
    apply Hnot; [|right; left|reflexivity].
    change (NoDup [PStr "a.example.com"; PStr "c.example.com"; PStr "b.example.com"]).
    repeat (apply NoDup_cons; split); try apply NoDup_nil_2;
      rewrite ?elem_of_cons, elem_of_nil; intros H; decompose [or] H; done.
Defined.

(** C7. A record whose [ips] is populated when the batch starts is passed
    over by [filter_subdomain] (with distinct names its name is not in the
    result) and is the same record after [update_data], whatever the
    outcome map holds, an entry under its own hostname included. *)
Theorem populated_record_skipped_and_unchanged
    (l1 l2 : list record) (data : record) (results_dict : gmap string value_dict) :
  pending data = false ->
  filter_subdomain (l1 ++ data :: l2) = (filter_subdomain l1 ++ filter_subdomain l2)%list
  /\ (NoDup (map name_of (l1 ++ data :: l2)) ->
      name_of data ∉ filter_subdomain (l1 ++ data :: l2))
  /\ fst (update_data (l1 ++ data :: l2) results_dict) !! List.length l1 = Some data.
Proof.
  intros Hp. split; [|split].
  - rewrite filter_subdomain_app, filter_subdomain_cons. by rewrite Hp.
  - intros Hnd. apply populated_name_not_selected; [done | set_solver | done].
  - rewrite update_data_app.
    pose proof (update_data_length l1 results_dict) as Hlen.
    destruct (update_data l1 results_dict) as [l1' [e|]]; cbn [fst snd] in Hlen |- *.
    + by apply list_lookup_middle.
    + rewrite (update_data_cons_return _ _ _ _ (update_item_populated _ _ Hp)).
      cbn [fst]. by apply list_lookup_middle.
Qed.

Lemma populated_record_skipped_and_unchanged_witness :
  pending Scenario.rec_resolved = false
  /\ Scenario.results_c !! "c.example.com" <> None
  /\ filter_subdomain [Scenario.rec_a; Scenario.rec_resolved; Scenario.rec_empty] =
       [PStr "a.example.com"; PStr "e.example.com"]
  /\ fst (update_data [Scenario.rec_empty; Scenario.rec_resolved; Scenario.rec_a]
            Scenario.results_c) !! 1 = Some Scenario.rec_resolved.
Proof.
  split; [reflexivity|]. split; [by vm_compute|]. split.
  - apply (populated_record_skipped_and_unchanged
             [Scenario.rec_a] [Scenario.rec_empty] Scenario.rec_resolved ∅ eq_refl).
  - apply (populated_record_skipped_and_unchanged
             [Scenario.rec_empty] [Scenario.rec_a] Scenario.rec_resolved
             Scenario.results_c eq_refl).
Defined.

Lemma update_data_returned (data_list : list record) (results_dict : gmap string value_dict) :
  snd (update_data data_list results_dict) = None ->
  Forall2 (fun data data' => update_item results_dict data = Return data')
    data_list (fst (update_data data_list results_dict)).
Proof.
  induction data_list as [|data rest IH]; intros Hret; [constructor|].
  destruct (update_item results_dict data) as [data'|e] eqn:Hitem.
  - rewrite (update_data_cons_return _ _ _ _ Hitem) in Hret |- *.
    cbn [fst snd] in Hret |- *. constructor; [done | by apply IH].
  - by rewrite (update_data_cons_raise _ _ _ _ Hitem) in Hret.
Qed.




(** C6. [update_data] is idempotent: run again with the same outcome map
    on the list it left, it leaves the same list and ends the same way.
    Record by record: a record that was pending and has been filled from
    its entry goes through the loop body unchanged, whether the entry
    holds addresses (the record is populated and skipped) or a failure
    (the record is written again with the same values). *)
Theorem update_data_idempotent
    (data_list : list record) (results_dict : gmap string value_dict) :
  update_data (fst (update_data data_list results_dict)) results_dict =
    update_data data_list results_dict
  /\ (forall data v,
        pending data = true ->
        results_get results_dict (name_of data) = Return (Some v) ->
        update_item results_dict (dict_update data v) = Return (dict_update data v)).
Proof.
  split.
  - induction data_list as [|data rest IH]; [reflexivity|].
    destruct (update_item results_dict data) as [data'|e] eqn:Hitem.
    + rewrite (update_data_cons_return _ _ _ _ Hitem). cbn [fst].
      rewrite (update_data_cons_return _ _ _ _ (update_item_idem _ _ _ Hitem)).
      by rewrite IH.
    + rewrite (update_data_cons_raise _ _ _ _ Hitem). cbn [fst].
      by rewrite (update_data_cons_raise _ _ _ _ Hitem).
  - intros data v Hp Hget.
    apply (update_item_idem results_dict data), update_item_found; done.
Qed.

Lemma update_data_idempotent_witness :
  update_data
    (fst (update_data [Scenario.rec_a; Scenario.rec_resolved; Scenario.rec_b]
            (convert_results Scenario.outcomes_ab)))
    (convert_results Scenario.outcomes_ab) =
  update_data [Scenario.rec_a; Scenario.rec_resolved; Scenario.rec_b]
    (convert_results Scenario.outcomes_ab)
  /\ snd (update_data [Scenario.rec_a; Scenario.rec_resolved; Scenario.rec_b]
            (convert_results Scenario.outcomes_ab)) = None
  /\ update_item (convert_results Scenario.outcomes_ab)
       (dict_update Scenario.rec_b
          {| ips := PNone; reason := PStr "('timed out',)"; valid := PInt 0 |}) =
     Return (dict_update Scenario.rec_b
               {| ips := PNone; reason := PStr "('timed out',)"; valid := PInt 0 |}).
Proof.
  destruct (update_data_idempotent [Scenario.rec_a; Scenario.rec_resolved; Scenario.rec_b]
              (convert_results Scenario.outcomes_ab)) as [Hlist Hitem].
  split; [exact Hlist|]. split; [reflexivity|].
  apply Hitem; reflexivity.
Defined.

Lemma convert_results_empty_tuple (hostname name : string) (aliases : list string) :
  convert_results [(hostname, AnsTuple (name, aliases, []))] !! hostname =
  Some {| ips := PStr ""; reason := PNone; valid := PNone |}.
Proof. unfold convert_results. simpl. by rewrite lookup_insert_eq. Qed.

(** C10. Whether a record is pending is decided by the truth value of its
    [ips]: a record whose [ips] is the empty string (what
    [convert_results] writes for a tuple with no address) or [None] is
    pending, is selected by [filter_subdomain], and is overwritten by
    [update_data]: after the call its [ips], [reason] and [valid] are
    those of the entry of its hostname, its other columns are as before. *)
Theorem falsy_ips_is_pending
    (l1 l2 : list record) (data : record) (results_dict : gmap string value_dict) :
  dict_get data "ips" = PStr "" \/ dict_get data "ips" = PNone ->
  pending data = true
  /\ filter_subdomain (l1 ++ data :: l2) =
       (filter_subdomain l1 ++ name_of data :: filter_subdomain l2)%list
  /\ (forall v,
        results_get results_dict (name_of data) = Return (Some v) ->
        snd (update_data l1 results_dict) = None ->
        exists data',
          fst (update_data (l1 ++ data :: l2) results_dict) !! List.length l1 = Some data'
          /\ dict_get data' "ips" = ips v
          /\ dict_get data' "reason" = reason v
          /\ dict_get data' "valid" = valid v
          /\ (forall k, written_column k = false -> data' !! k = data !! k))
  /\ (forall hostname name aliases,
        convert_results [(hostname, AnsTuple (name, aliases, []))] !! hostname =
          Some {| ips := PStr ""; reason := PNone; valid := PNone |}).
Proof.
  intros Hips.
  assert (pending data = true) as Hp.
  { unfold pending. by destruct Hips as [-> | ->]. }
  split; [done|]. split; [|split].
  - rewrite filter_subdomain_app, filter_subdomain_cons. by rewrite Hp.
  - intros v Hget Hl1. rewrite update_data_app.
    pose proof (update_data_length l1 results_dict) as Hlen.
    destruct (update_data l1 results_dict) as [l1' r]. cbn [fst snd] in Hlen, Hl1 |- *.
    subst r.
    rewrite (update_data_cons_return _ _ _ _ (update_item_found _ _ _ Hp Hget)).
    cbn [fst]. exists (dict_update data v).
    split; [by apply list_lookup_middle|].
    destruct (dict_update_written data v) as (Hi & Hr & Hv).
    repeat split; try done.
    intros k Hk. by apply dict_update_other.
  - apply convert_results_empty_tuple.
Qed.

Lemma falsy_ips_is_pending_witness :
  dict_get Scenario.rec_empty "ips" = PStr ""
  /\ filter_subdomain [Scenario.rec_resolved; Scenario.rec_empty] = [PStr "e.example.com"]
  /\ exists data',
       fst (update_data [Scenario.rec_resolved; Scenario.rec_empty] Scenario.results_c) !! 1
         = Some data'
       /\ dict_get data' "ips" = PStr "'2.2.2.2'"
       /\ dict_get data' "reason" = PNone
       /\ dict_get data' "valid" = PNone
       /\ (forall k, written_column k = false -> data' !! k = Scenario.rec_empty !! k).
Proof.
  split; [reflexivity|].
  destruct (falsy_ips_is_pending [Scenario.rec_resolved] [] Scenario.rec_empty
              Scenario.results_c (or_introl eq_refl)) as (_ & Hsel & Hupd & _).
  split; [exact Hsel|].
  apply (Hupd {| ips := PStr "'2.2.2.2'"; reason := PNone; valid := PNone |});
    reflexivity.
Defined.

(** ** [convert_results] *)

Section ConvertResults.

Implicit Types (result_list : list (string * answer)) (result_dict : gmap string value_dict).
Implicit Types (hostname : string) (a : answer).

(** Each branch of the loop stores one dictionary under the hostname. *)
Lemma convert_step_insert result_dict hostname a :
  convert_step result_dict (hostname, a) = <[hostname := value_of_answer a]> result_dict.
Proof.
  destruct a as [[[name aliases] addrs]|e|v]; simpl; [reflexivity| |reflexivity].
  by destruct (isinstance_Exception (exc_cls e)).
Qed.

Lemma convert_fold_other result_list result_dict hostname :
  hostname ∉ map fst result_list ->
  fold_left convert_step result_list result_dict !! hostname = result_dict !! hostname.
Proof.
  revert result_dict. induction result_list as [|[h a] rest IH]; intros result_dict Hnot.
  - reflexivity.
  - simpl in Hnot. apply not_elem_of_cons in Hnot as [Hne Hnot].
    cbn [fold_left]. rewrite IH by done.
    rewrite convert_step_insert. by rewrite lookup_insert_ne.
Qed.

(** The entry of a hostname is that of its last outcome in the list. *)
Lemma convert_results_last (l1 l2 : list (string * answer)) hostname a :
  hostname ∉ map fst l2 ->
  convert_results (l1 ++ (hostname, a) :: l2) !! hostname = Some (value_of_answer a).
Proof.
  intros Hnot. unfold convert_results.
  rewrite fold_left_app. cbn [fold_left].
  rewrite convert_fold_other by done.
  rewrite convert_step_insert. by rewrite lookup_insert_eq.
Qed.

Lemma convert_fold_inv result_list result_dict hostname (e : value_dict) :
  fold_left convert_step result_list result_dict !! hostname = Some e ->
  (exists a, (hostname, a) ∈ result_list /\ e = value_of_answer a)
  \/ result_dict !! hostname = Some e.
Proof.
  revert result_dict. induction result_list as [|[h a] rest IH]; intros result_dict Hlook.
  - by right.
  - cbn [fold_left] in Hlook. apply IH in Hlook as [(a' & Hin & He)|Hlook].
    + left. exists a'. split; [by right | done].
    + rewrite convert_step_insert, lookup_insert in Hlook.
      case_decide as Hh.
      * left. exists a. subst h. split; [by left | congruence].
      * by right.
Qed.

(** Every entry of the map comes from an outcome of the list. *)
Lemma convert_results_inv result_list hostname (e : value_dict) :
  convert_results result_list !! hostname = Some e ->
  exists a, (hostname, a) ∈ result_list /\ e = value_of_answer a.
Proof.
  intros Hlook. apply convert_fold_inv in Hlook as [Hex|Hempty]; [done|].
  by rewrite lookup_empty in Hempty.
Qed.

End ConvertResults.

(** C2, as the code has it. In every entry of the map built by
    [convert_results], [ips] and [reason] are never both set. The entry
    comes from an outcome of the list: for a tuple, [ips] is set and
    [reason] is not; for an instance of [Exception], [reason] is set and
    [ips] is not; for any other answer neither is set and [valid] is 0. *)
Theorem convert_results_entry_shape
    (result_list : list (string * answer)) (hostname : string) (e : value_dict) :
  convert_results result_list !! hostname = Some e ->
  ~ (ips e <> PNone /\ reason e <> PNone)
  /\ exists a, (hostname, a) ∈ result_list
       /\ if is_tuple a then ips e <> PNone /\ reason e = PNone /\ valid e = PNone
          else if is_exception a then ips e = PNone /\ reason e <> PNone /\ valid e = PInt 0
          else ips e = PNone /\ reason e = PNone /\ valid e = PInt 0.
Proof.
  intros Hlook. apply convert_results_inv in Hlook as (a & Hin & ->).
  split.
  - destruct a as [[[name aliases] addrs]|x|v]; simpl.
    + intros [_ H]. by apply H.
    + destruct (isinstance_Exception (exc_cls x)); simpl; intros [H H']; by (apply H || apply H').
    + intros [H _]. by apply H.
  - exists a. split; [done|].
    destruct a as [[[name aliases] addrs]|x|v]; simpl; [done| |done].
    by destruct (isinstance_Exception (exc_cls x)).
Qed.

Lemma convert_results_entry_shape_witness :
  convert_results Scenario.outcomes_ab !! "b.example.com" =
    Some {| ips := PNone; reason := PStr "('timed out',)"; valid := PInt 0 |}
  /\ ~ (PNone <> PNone /\ PStr "('timed out',)" <> PNone).
Proof.
  split; [reflexivity|].
  apply (convert_results_entry_shape Scenario.outcomes_ab "b.example.com"
           {| ips := PNone; reason := PStr "('timed out',)"; valid := PInt 0 |} eq_refl).
Defined.

(** C2, as the specification has it, fails: an answer that is neither a
    tuple nor an instance of [Exception] (a [KeyboardInterrupt] caught by
    the query, or [None]) gives an entry with neither [ips] nor [reason]. *)
Lemma convert_results_entry_shape_counterexample :
  convert_results [("k.example.com", AnsExc (MkExc KeyboardInterrupt []))] !! "k.example.com" =
    Some {| ips := PNone; reason := PNone; valid := PInt 0 |}
  /\ convert_results [("n.example.com", AnsOther PNone)] !! "n.example.com" =
    Some {| ips := PNone; reason := PNone; valid := PInt 0 |}.
Proof. split; reflexivity. Qed.

(** C3, as the code has it. For a tuple answer that is the last outcome
    of its hostname in the list, the entry of the hostname has [ips] equal
    to a string, the text of the address list as [str] prints it with the
    brackets cut off (each address in quotes, separated by a comma and a
    blank), and [reason] and [valid] are [None]. *)
Theorem convert_results_success
    (l1 l2 : list (string * answer)) (hostname name : string) (aliases addrs : list string) :
  hostname ∉ map fst l2 ->
  convert_results (l1 ++ (hostname, AnsTuple (name, aliases, addrs)) :: l2) !! hostname =
    Some {| ips := PStr (join_comma (map py_repr_str addrs)); reason := PNone; valid := PNone |}.
Proof.
  intros Hnot. rewrite convert_results_last by done.
  unfold value_of_answer. by rewrite slice_repr_list.
Qed.

Lemma convert_results_success_witness :
  ("a.example.com" ∉ map fst (tail Scenario.outcomes_ab))
  /\ convert_results Scenario.outcomes_ab !! "a.example.com" =
       Some {| ips := PStr "'1.2.3.4'"; reason := PNone; valid := PNone |}.
Proof.
  assert ("a.example.com" ∉ map fst (tail Scenario.outcomes_ab)) as Hnot.
  { simpl. intros H. apply elem_of_cons in H as [H|H]; [discriminate|].
    by apply elem_of_nil in H. }
  split; [exact Hnot|].
  apply (convert_results_success [] _ "a.example.com" "a.example.com" [] ["1.2.3.4"] Hnot).
Defined.

(** C3, as the specification has it, fails: the entry of a host that
    resolves to the list with the one address 1.2.3.4 holds a string, the
    address in quotes, and not the list. *)
Lemma convert_results_success_counterexample :
  convert_results [("a.example.com", AnsTuple ("a.example.com", [], ["1.2.3.4"]))]
    !! "a.example.com" =
    Some {| ips := PStr "'1.2.3.4'"; reason := PNone; valid := PNone |}
  /\ PStr "'1.2.3.4'" <> PList [PStr "1.2.3.4"].
Proof. split; [reflexivity | discriminate]. Qed.

(** ** The asynchronous part *)

Section Queries.

Variable gethostbyname_ex : string -> py_result host_tuple.

Lemma aiodns_query_a_run (hostname : string) (w : world) :
  aiodns_query_a gethostbyname_ex hostname w =
  match gethostbyname_ex hostname with
  | Return t => (Return (hostname, AnsTuple t), w)
  | Raise e =>
      (Return (hostname, AnsExc e),
       {| pr_queue := pr_queue w;
          events := (events w ++ [EvLog "TRACE" (exc_args e)])%list |})
  end.
Proof.
  unfold aiodns_query_a, bind, try_except, run_in_executor_gethostbyname_ex.
  destruct (gethostbyname_ex hostname) as [t|e]; reflexivity.
Qed.

Lemma aio_query_run (hostname : string) (w : world) :
  exists w',
    aio_query gethostbyname_ex hostname w =
      (Return (hostname, answer_of gethostbyname_ex hostname), w')
    /\ pr_queue w' = (pr_queue w ++ [1%Z])%list
    /\ exists log, events w' = (events w ++ log)%list
                   /\ existsb is_monitor_start log = false
                   /\ existsb is_pool_start log = false.
Proof.
  unfold aio_query, bind, answer_of. rewrite aiodns_query_a_run.
  destruct (gethostbyname_ex hostname) as [t|e]; eexists; (split; [reflexivity|]);
    (split; [reflexivity|]); simpl.
  - exists []. by rewrite app_nil_r.
  - by eexists.
Qed.

(** The pool gives one result per hostname, in the order of the list, and
    every query puts one item on the progress queue. *)
Lemma pool_map_aio_query_run (subdomain_list : list string) (w : world) :
  exists w',
    pool_map (aio_query gethostbyname_ex) subdomain_list w =
      (Return (map (fun h => (h, answer_of gethostbyname_ex h)) subdomain_list), w')
    /\ List.length (pr_queue w') = List.length (pr_queue w) + List.length subdomain_list.
Proof.
  revert w. induction subdomain_list as [|h rest IH]; intros w.
  - exists w. split; [reflexivity | simpl; lia].
  - destruct (aio_query_run h w) as (w1 & Hq & Hqueue & _).
    destruct (IH w1) as (w2 & Hrest & Hlen).
    exists w2. split.
    + cbn [pool_map]. unfold bind at 1. rewrite Hq.
      unfold bind at 1. rewrite Hrest. reflexivity.
    + rewrite Hlen, Hqueue, length_app. simpl. lia.
Qed.

Lemma aio_resolve_run (subdomain_list : list string) (process_num coroutine_num : Z)
    (w : world) :
  exists w',
    aio_resolve gethostbyname_ex subdomain_list process_num coroutine_num w =
      (Return (map (fun h => (h, answer_of gethostbyname_ex h)) subdomain_list), w')
    /\ List.length (pr_queue w') = List.length subdomain_list.
Proof.
  unfold aio_resolve, with_pool, bind, new_queue, emit, ret.
  cbn [pr_queue events snd].
  match goal with
  | |- context [pool_map _ _ ?w1] =>
      destruct (pool_map_aio_query_run subdomain_list w1) as (w2 & Hmap & Hlen)
  end.
  rewrite Hmap. eexists. cbn [snd pr_queue].
  split; [reflexivity|]. exact Hlen.
Qed.

End Queries.

(** The monitor loop ends at the first poll that sees [done == total],
    and not before. *)
Lemma resolve_progress_loop_first_hit (qsize : nat -> nat) (total k fuel polls : nat) :
  (forall j, j < k -> qsize (polls + j) <> total) ->
  qsize (polls + k) = total ->
  resolve_progress_loop qsize total polls (S k + fuel) = Some (S (polls + k)).
Proof.
  revert polls. induction k as [|k IH]; intros polls Hbefore Hhit.
  - rewrite Nat.add_0_r in Hhit |- *. simpl. rewrite Hhit. by rewrite Nat.eqb_refl.
  - change (S (S k) + fuel) with (S (S k + fuel)). cbn [resolve_progress_loop].
    destruct (Nat.eqb_spec (qsize polls) total) as [Heq|_].
    + exfalso. apply (Hbefore 0); [lia|]. by rewrite Nat.add_0_r.
    + rewrite IH.
      * f_equal. lia.
      * intros j Hj. replace (S polls + j) with (polls + S j) by lia. apply Hbefore. lia.
      * by replace (S polls + k) with (polls + S k) by lia.
Qed.

Lemma resolve_progress_first_hit (qsize : nat -> nat) (total k fuel : nat) :
  (forall j, j < k -> qsize j <> total) ->
  qsize k = total ->
  resolve_progress qsize total (S k + fuel) = Some (S k).
Proof.
  intros Hbefore Hhit. unfold resolve_progress.
  by rewrite (resolve_progress_loop_first_hit qsize total k fuel 0).
Qed.

(** C8, as the code has it. [aiodns_query_a] never lets an exception
    out. Whatever comes up in the body of its [try], the tuple of the
    resolver or an exception of any class, the call returns a pair
    [(hostname, answer)]. After an exception the answer is the exception
    object itself, not a reason string, and its [args] are logged at
    level TRACE. A reason string comes only later, from [convert_results],
    and only for an instance of [Exception]: the text of the [args]; for
    any other exception the reason stays [None]. *)
Theorem aiodns_query_a_never_raises
    (gethostbyname_ex : string -> py_result host_tuple) (hostname : string) (w : world) :
  exists (a : answer) (w' : world),
    aiodns_query_a gethostbyname_ex hostname w = (Return (hostname, a), w')
    /\ match gethostbyname_ex hostname with
       | Return t => a = AnsTuple t /\ w' = w
       | Raise e =>
           a = AnsExc e
           /\ pr_queue w' = pr_queue w
           /\ events w' = (events w ++ [EvLog "TRACE" (exc_args e)])%list
           /\ convert_results [(hostname, a)] !! hostname =
                Some {| ips := PNone;
                        reason := if isinstance_Exception (exc_cls e)
                                  then PStr (py_str_tuple (exc_args e)) else PNone;
                        valid := PInt 0 |}
       end.
Proof.
  rewrite aiodns_query_a_run.
  destruct (gethostbyname_ex hostname) as [t|e]; do 2 eexists; (split; [reflexivity|]).
  - done.
  - repeat split.
    change [(hostname, AnsExc e)] with ([] ++ (hostname, AnsExc e) :: [])%list.
    rewrite convert_results_last by apply not_elem_of_nil.
    unfold value_of_answer. by destruct (isinstance_Exception (exc_cls e)).
Qed.

(** C8, as the specification has it, fails: when the query is interrupted
    ([KeyboardInterrupt], with no [args]), the outcome returned carries
    the exception object and no reason string, and none comes of it in
    [convert_results] either. *)
Lemma aiodns_query_a_never_raises_counterexample :
  fst (aiodns_query_a Scenario3.resolver_interrupted "k.example.com" Scenario.world0) =
    Return ("k.example.com", AnsExc (MkExc KeyboardInterrupt []))
  /\ (forall s : string,
        AnsExc (MkExc KeyboardInterrupt []) <> AnsOther (PStr s))
  /\ convert_results [("k.example.com", AnsExc (MkExc KeyboardInterrupt []))]
       !! "k.example.com" =
     Some {| ips := PNone; reason := PNone; valid := PInt 0 |}.
Proof. split; [reflexivity|]. split; [discriminate | reflexivity]. Qed.

(** C4. For a list of hostnames that is not empty and has no duplicate,
    [aio_resolve] returns one outcome per hostname: as many outcomes as
    hostnames, the hostnames of the outcomes are the hostnames of the list
    in its order, none twice, and each query has put one item on the
    progress queue. *)
Theorem aio_resolve_one_outcome_per_hostname
    (gethostbyname_ex : string -> py_result host_tuple)
    (subdomain_list : list string) (process_num coroutine_num : Z) (w : world) :
  subdomain_list <> [] ->
  NoDup subdomain_list ->
  exists (results : list (string * answer)) (w' : world),
    aio_resolve gethostbyname_ex subdomain_list process_num coroutine_num w =
      (Return results, w')
    /\ List.length results = List.length subdomain_list
    /\ map fst results = subdomain_list
    /\ NoDup (map fst results)
    /\ results = map (fun h => (h, answer_of gethostbyname_ex h)) subdomain_list
    /\ List.length (pr_queue w') = List.length subdomain_list.
Proof.
  intros _ Hnd.
  destruct (aio_resolve_run gethostbyname_ex subdomain_list process_num coroutine_num w)
    as (w' & Hrun & Hqueue).
  assert (map fst (map (fun h => (h, answer_of gethostbyname_ex h)) subdomain_list)
          = subdomain_list) as Hfst.
  { rewrite map_map. simpl. apply map_id. }
  eexists _, w'. split; [exact Hrun|].
  rewrite Hfst. repeat split; try done.
  by rewrite length_map.
Qed.

Lemma aio_resolve_one_outcome_per_hostname_witness :
  ["a.example.com"; "b.example.com"] <> []
  /\ NoDup ["a.example.com"; "b.example.com"]
  /\ fst (aio_resolve Scenario.resolver_a ["a.example.com"; "b.example.com"] 4 64
            Scenario.world0) =
     Return
       [ ("a.example.com", AnsTuple ("a.example.com", [], ["1.2.3.4"]));
         ("b.example.com",
          AnsExc (MkExc GaiError [PInt (-2); PStr "Name or service not known"])) ].
Proof.
  assert (NoDup ["a.example.com"; "b.example.com"]) as Hnd.
  { apply NoDup_cons. split.
    - intros H. apply elem_of_cons in H as [H|H]; [discriminate | by apply elem_of_nil in H].
    - apply NoDup_cons. split; [apply not_elem_of_nil | apply NoDup_nil_2]. }
  split; [discriminate|]. split; [exact Hnd|].
  destruct (aio_resolve_one_outcome_per_hostname Scenario.resolver_a
              ["a.example.com"; "b.example.com"] 4 64 Scenario.world0
              ltac:(discriminate) Hnd)
    as (results & w' & Hrun & _ & _ & _ & Hres & _).
  rewrite Hrun, Hres. reflexivity.
Defined.

(** C9, as the code has it. For the empty list [aio_resolve] returns the
    empty list of outcomes and runs no query, but it does start the
    monitor loop, with total 0, and it does start and close a pool of
    workers. The progress queue stays empty, and the monitor loop with
    total 0 on an empty queue makes one poll and ends. *)
Theorem aio_resolve_empty
    (gethostbyname_ex : string -> py_result host_tuple)
    (process_num coroutine_num : Z) (w : world) :
  aio_resolve gethostbyname_ex [] process_num coroutine_num w =
    (Return [],
     {| pr_queue := [];
        events := (events w ++ [EvMonitorStarted 0;
                                EvPoolStarted process_num coroutine_num;
                                EvPoolClosed])%list |})
  /\ (forall (qsize : nat -> nat) (fuel : nat),
        qsize 0 = 0 -> resolve_progress qsize 0 (S fuel) = Some 1).
Proof.
  split.
  - unfold aio_resolve, with_pool, bind, new_queue, emit, ret. simpl.
    by rewrite <- !app_assoc.
  - intros qsize fuel Hq.
    apply (resolve_progress_first_hit qsize 0 0 fuel); [lia | done].
Qed.

Lemma aio_resolve_empty_witness :
  aio_resolve Scenario.resolver_a [] 4 64 Scenario.world0 =
    (Return [],
     {| pr_queue := [];
        events := [EvMonitorStarted 0; EvPoolStarted 4 64; EvPoolClosed] |})
  /\ resolve_progress (fun _ => 0) 0 1 = Some 1.
Proof.
  destruct (aio_resolve_empty Scenario.resolver_a 4 64 Scenario.world0) as [Hrun Hmon].
  split; [exact Hrun | exact (Hmon (fun _ => 0) 0 eq_refl)].
Defined.

(** C9, as the specification has it, fails: for the empty list the
    monitor loop is started and a pool of workers is started. *)
Lemma aio_resolve_empty_counterexample :
  fst (aio_resolve Scenario.resolver_a [] 4 64 Scenario.world0) = Return []
  /\ monitor_started (snd (aio_resolve Scenario.resolver_a [] 4 64 Scenario.world0)) = true
  /\ workers_started (snd (aio_resolve Scenario.resolver_a [] 4 64 Scenario.world0)) = true.
Proof. repeat split. Qed.

(** * Further properties *)

Set Warnings "-clear-no-such-hyp".

(** ** The map built by [convert_results] *)

Lemma convert_fold_dom (result_list : list (string * answer))
    (result_dict : gmap string value_dict) :
  dom (fold_left convert_step result_list result_dict) =
  (list_to_set (map fst result_list) ∪ dom result_dict : gset string).
Proof.
  revert result_dict. induction result_list as [|[h a] rest IH]; intros result_dict.
  - simpl. set_solver.
  - cbn [fold_left]. rewrite IH, convert_step_insert, dom_insert_L. simpl. set_solver.
Qed.

Lemma convert_fold_size (result_list : list (string * answer))
    (result_dict : gmap string value_dict) :
  size (fold_left convert_step result_list result_dict) <=
  size result_dict + List.length result_list.
Proof.
  revert result_dict. induction result_list as [|[h a] rest IH]; intros result_dict.
  - simpl. lia.
  - cbn [fold_left]. etrans; [apply IH|].
    rewrite convert_step_insert, map_size_insert. simpl.
    destruct (result_dict !! h); unfold id; lia.
Qed.

(** X1. Every outcome gets an entry: the keys of the map built by
    [convert_results] are the hostnames of the outcome list, whatever the
    answers are. *)
Theorem convert_results_keys (result_list : list (string * answer)) :
  dom (convert_results result_list) = (list_to_set (map fst result_list) : gset string)
  /\ (forall hostname,
        is_Some (convert_results result_list !! hostname) <->
        hostname ∈ map fst result_list).
Proof.
  assert (dom (convert_results result_list)
          = (list_to_set (map fst result_list) : gset string)) as Hdom.
  { unfold convert_results. rewrite convert_fold_dom. set_solver. }
  split; [exact Hdom|].
  intros hostname. rewrite <- elem_of_dom, Hdom. set_solver.
Qed.

(** X2. An outcome list with [n] outcomes gives a map with at most [n]
    entries, and with exactly [n] entries when no hostname occurs twice:
    outcomes of one hostname are folded into one entry. *)
Theorem convert_results_size (result_list : list (string * answer)) :
  size (convert_results result_list) <= List.length result_list
  /\ (NoDup (map fst result_list) ->
      size (convert_results result_list) = List.length result_list).
Proof.
  split.
  - unfold convert_results.
    pose proof (convert_fold_size result_list ∅) as Hle.
    by rewrite map_size_empty in Hle.
  - intros Hnd. rewrite <- size_dom.
    unfold convert_results. rewrite convert_fold_dom, dom_empty_L, union_empty_r_L.
    rewrite size_list_to_set by done. by rewrite length_map.
Qed.

Lemma convert_results_size_witness :
  NoDup (map fst Scenario.outcomes_ab)
  /\ size (convert_results Scenario.outcomes_ab) = 2
  /\ size (convert_results Scenario2.outcomes_dup) <= 3.
Proof.
  assert (NoDup (map fst Scenario.outcomes_ab)) as Hnd.
  { simpl. apply NoDup_cons. split.
    - intros H. apply elem_of_cons in H as [H|H]; [discriminate | by apply elem_of_nil in H].
    - apply NoDup_cons. split; [apply not_elem_of_nil | apply NoDup_nil_2]. }
  split; [exact Hnd|]. split.
  - exact (proj2 (convert_results_size Scenario.outcomes_ab) Hnd).
  - exact (proj1 (convert_results_size Scenario2.outcomes_dup)).
Defined.

(** X3. For an answer that is an instance of [Exception] and is the last
    outcome of its hostname, the entry has no [ips], the text of the
    [args] of the exception as [reason], and [valid] 0. An earlier outcome
    of the same hostname, a success included, is overwritten. *)
Theorem convert_results_failure
    (l1 l2 : list (string * answer)) (hostname : string) (e : py_exc) :
  isinstance_Exception (exc_cls e) = true ->
  hostname ∉ map fst l2 ->
  convert_results (l1 ++ (hostname, AnsExc e) :: l2) !! hostname =
    Some {| ips := PNone; reason := PStr (py_str_tuple (exc_args e)); valid := PInt 0 |}.
Proof.
  intros Hexc Hnot. rewrite convert_results_last by done.
  unfold value_of_answer. by rewrite Hexc.
Qed.

Lemma convert_results_failure_witness :
  convert_results Scenario2.outcomes_dup !! "a.example.com" =
    Some {| ips := PNone;
            reason := PStr "(-2, 'Name or service not known')";
            valid := PInt 0 |}.
Proof.
  apply (convert_results_failure
           [ ("a.example.com", AnsTuple ("a.example.com", [], ["1.2.3.4"]));
             ("b.example.com", AnsExc (MkExc SocketTimeout [PStr "timed out"])) ]
           [] "a.example.com"
           (MkExc GaiError [PInt (-2); PStr "Name or service not known"]) eq_refl).
  apply not_elem_of_nil.
Defined.

(** ** What [convert_results] stores for the addresses *)

Lemma py_repr_str_starts (s : string) :
  exists t, py_repr_str s = String (repr_quote s) t.
Proof. unfold py_repr_str. by eexists. Qed.

Lemma join_comma_starts (c : ascii) (t : string) (l : list string) :
  exists t', join_comma (String c t :: l) = String c t'.
Proof. destruct l as [|y l]; simpl; by eexists. Qed.

Lemma join_comma_repr_nonempty (addrs : list string) :
  addrs <> [] -> String.eqb (join_comma (map py_repr_str addrs)) "" = false.
Proof.
  destruct addrs as [|x rest]; [done|]. intros _.
  cbn [map]. destruct (py_repr_str_starts x) as [t ->].
  by destruct (join_comma_starts (repr_quote x) t (map py_repr_str rest)) as [t' ->].
Qed.

(** X4. The [ips] stored for a tuple answer is true as a condition exactly
    when the tuple holds at least one address. *)
Theorem convert_results_success_truthy
    (l1 l2 : list (string * answer)) (hostname name : string)
    (aliases addrs : list string) (e : value_dict) :
  hostname ∉ map fst l2 ->
  convert_results (l1 ++ (hostname, AnsTuple (name, aliases, addrs)) :: l2) !! hostname
    = Some e ->
  (truthy (ips e) = true <-> addrs <> []).
Proof.
  intros Hnot. rewrite convert_results_last by done.
  intros He. assert (e = value_of_answer (AnsTuple (name, aliases, addrs))) as -> by congruence.
  unfold value_of_answer. cbn [ips]. rewrite slice_repr_list. cbn [truthy].
  destruct addrs as [|x rest].
  - simpl. split; [discriminate | done].
  - rewrite join_comma_repr_nonempty by done. simpl. split; [done | reflexivity].
Qed.

Lemma convert_results_success_truthy_witness :
  truthy (PStr "'1.2.3.4'") = true <-> ["1.2.3.4"] <> [].
Proof.
  apply (convert_results_success_truthy [] (tail Scenario.outcomes_ab)
           "a.example.com" "a.example.com" [] ["1.2.3.4"]
           {| ips := PStr "'1.2.3.4'"; reason := PNone; valid := PNone |}).
  - simpl. intros H. apply elem_of_cons in H as [H|H]; [discriminate|].
    by apply elem_of_nil in H.
  - reflexivity.
Defined.

Lemma plain_char_not_squote (c : ascii) :
  plain_char c = true -> Ascii.eqb squote c = false.
Proof.
  destruct c as [[] [] [] [] [] [] [] []]; vm_compute; intros H;
    first [reflexivity | discriminate H].
Qed.

Lemma repr_char_plain (c : ascii) :
  plain_char c = true -> repr_char squote c = String c EmptyString.
Proof.
  destruct c as [[] [] [] [] [] [] [] []]; vm_compute; intros H;
    first [reflexivity | discriminate H].
Qed.

Lemma has_squote_plain (s : string) : plain s = true -> has_char squote s = false.
Proof.
  induction s as [|c s IH]; [done|]. cbn [plain has_char].
  intros [Hc Hs]%andb_true_iff. by rewrite plain_char_not_squote, IH.
Qed.

Lemma repr_chars_plain (s : string) : plain s = true -> repr_chars squote s = s.
Proof.
  induction s as [|c s IH]; [done|]. cbn [plain repr_chars].
  intros [Hc Hs]%andb_true_iff. by rewrite repr_char_plain, IH.
Qed.

Lemma py_repr_str_plain (s : string) :
  plain s = true -> py_repr_str s = String squote (s +:+ String squote EmptyString).
Proof.
  intros Hs. unfold py_repr_str, repr_quote.
  rewrite has_squote_plain by done. cbn [andb].
  by rewrite repr_chars_plain.
Qed.

(** X5. For addresses made of printable ASCII characters other than the
    single quote and the backslash, as IP addresses are, the [ips] stored
    for a tuple answer is the addresses in their order, each between
    single quotes, separated by a comma and a blank. *)
Theorem convert_results_plain_addresses
    (l1 l2 : list (string * answer)) (hostname name : string) (aliases addrs : list string) :
  hostname ∉ map fst l2 ->
  forallb plain addrs = true ->
  convert_results (l1 ++ (hostname, AnsTuple (name, aliases, addrs)) :: l2) !! hostname =
    Some {| ips := PStr (join_comma
                           (map (fun a => String squote (a +:+ String squote EmptyString))
                              addrs));
            reason := PNone; valid := PNone |}.
Proof.
  intros Hnot Hplain. rewrite convert_results_last by done.
  unfold value_of_answer. rewrite slice_repr_list.
  do 3 f_equal. f_equal. apply map_ext_in. intros a Ha.
  apply py_repr_str_plain. rewrite forallb_forall in Hplain. by apply Hplain.
Qed.

Lemma convert_results_plain_addresses_witness :
  forallb plain ["10.0.0.1"; "10.0.0.2"] = true
  /\ convert_results [("h.example.com", AnsTuple ("h.example.com", [], ["10.0.0.1"; "10.0.0.2"]))]
       !! "h.example.com" =
     Some {| ips := PStr "'10.0.0.1', '10.0.0.2'"; reason := PNone; valid := PNone |}.
Proof.
  split; [reflexivity|].
  apply (convert_results_plain_addresses [] [] "h.example.com" "h.example.com" []
           ["10.0.0.1"; "10.0.0.2"]).
  - apply not_elem_of_nil.
  - reflexivity.
Defined.

(** ** What [update_data] changes and what it keeps *)

Section UpdateDataMore.

Implicit Types (data : record) (data_list : list record).
Implicit Types (results_dict : gmap string value_dict) (v : value_dict).

(** Each record of the list after the loop is the record before, as it
    was or updated from an entry. *)
Lemma update_data_steps data_list results_dict :
  Forall2 (fun data data' => data' = data \/ exists v, data' = dict_update data v)
    data_list (fst (update_data data_list results_dict)).
Proof.
  induction data_list as [|data rest IH]; [constructor|].
  destruct (update_item results_dict data) as [data'|e] eqn:Hitem.
  - rewrite (update_data_cons_return _ _ _ _ Hitem). cbn [fst].
    constructor; [|exact IH].
    apply update_item_return_inv in Hitem.
    destruct (pending data); [|by left].
    destruct Hitem as (v & _ & ->). right. by exists v.
  - rewrite (update_data_cons_raise _ _ _ _ Hitem). cbn [fst].
    apply Forall_Forall2_diag, Forall_forall. intros d _. by left.
Qed.

(** X6. [update_data] neither adds nor removes records, and it writes no
    column but [ips], [reason] and [valid]: at every position of the
    list, every other column, [subdomain] among them, is after the call
    what it was before, whether the call returned or raised. *)
Theorem update_data_frame data_list results_dict :
  List.length (fst (update_data data_list results_dict)) = List.length data_list
  /\ (forall (i : nat) data data' (k : string),
        data_list !! i = Some data ->
        fst (update_data data_list results_dict) !! i = Some data' ->
        written_column k = false ->
        data' !! k = data !! k).
Proof.
  pose proof (update_data_steps data_list results_dict) as Hsteps.
  split.
  - symmetry. by eapply Forall2_length.
  - intros i data data' k Hi Hi' Hk.
    destruct (Forall2_lookup_lr _ _ _ _ _ _ Hsteps Hi Hi') as [->|[v ->]]; [done|].
    by apply dict_update_other.
Qed.

Lemma update_data_frame_witness :
  fst (update_data [Scenario2.rec_failed]
         (convert_results Scenario.outcomes_ab)) !! 0 =
    Some (dict_update Scenario2.rec_failed
            {| ips := PNone; reason := PStr "('timed out',)"; valid := PInt 0 |})
  /\ dict_update Scenario2.rec_failed
       {| ips := PNone; reason := PStr "('timed out',)"; valid := PInt 0 |} !! "port" =
     Some (PInt 443).
Proof.
  split; [reflexivity|].
  apply (proj2 (update_data_frame [Scenario2.rec_failed]
                  (convert_results Scenario.outcomes_ab))
           0 Scenario2.rec_failed _ "port"); reflexivity.
Defined.

(** X7. [update_data] returns, instead of raising, exactly when the
    hostname of every pending record of the list is a key of the outcome
    map. *)
Theorem update_data_returns_iff data_list results_dict :
  snd (update_data data_list results_dict) = None <->
  (forall data, data ∈ data_list -> pending data = true ->
     exists v, results_get results_dict (name_of data) = Return (Some v)).
Proof.
  split; [|apply update_data_no_raise].
  intros Hret data Hin Hp.
  pose proof (update_data_returned _ _ Hret) as Hall.
  apply list_elem_of_lookup in Hin as [i Hi].
  destruct (Forall2_lookup_l _ _ _ _ _ Hall Hi) as (data' & _ & Hitem).
  apply update_item_return_inv in Hitem. rewrite Hp in Hitem.
  destruct Hitem as (v & Hget & _). by exists v.
Qed.

Lemma filter_subdomain_nil_populated data_list :
  filter_subdomain data_list = [] -> Forall (fun data => pending data = false) data_list.
Proof.
  induction data_list as [|data rest IH]; [constructor|].
  rewrite filter_subdomain_cons. destruct (pending data) eqn:Hp; [done|].
  intros Hrest. constructor; [done | by apply IH].
Qed.

(** X8. When [filter_subdomain] selects nothing from a list, [update_data]
    returns the list as it is, whatever the outcome map holds. *)
Theorem update_data_nothing_pending data_list results_dict :
  filter_subdomain data_list = [] ->
  update_data data_list results_dict = (data_list, None).
Proof.
  intros Hnone. apply filter_subdomain_nil_populated in Hnone.
  induction Hnone as [|data rest Hp _ IH]; [reflexivity|].
  rewrite (update_data_cons_return _ _ _ _ (update_item_populated results_dict _ Hp)).
  by rewrite IH.
Qed.

Lemma update_data_nothing_pending_witness :
  filter_subdomain [Scenario.rec_resolved] = []
  /\ update_data [Scenario.rec_resolved] Scenario.results_c = ([Scenario.rec_resolved], None).
Proof.
  split; [reflexivity|].
  apply (update_data_nothing_pending [Scenario.rec_resolved] Scenario.results_c eq_refl).
Defined.

(** X9. After [update_data], the names that [filter_subdomain] selects
    are a sublist of the names it selected before: no populated record
    becomes pending, no name changes, and the order is kept. *)
Theorem update_data_pending_shrinks data_list results_dict :
  sublist (filter_subdomain (fst (update_data data_list results_dict)))
    (filter_subdomain data_list).
Proof.
  induction data_list as [|data rest IH]; [constructor|].
  destruct (update_item results_dict data) as [data'|e] eqn:Hitem.
  - rewrite (update_data_cons_return _ _ _ _ Hitem). cbn [fst].
    rewrite !filter_subdomain_cons.
    apply update_item_return_inv in Hitem.
    destruct (pending data) eqn:Hp.
    + destruct Hitem as (v & _ & ->). rewrite name_of_dict_update.
      destruct (pending (dict_update data v)).
      * by apply sublist_skip.
      * by apply sublist_cons.
    + subst data'. by rewrite Hp.
  - by rewrite (update_data_cons_raise _ _ _ _ Hitem).
Qed.

(** X10. When [update_data] returns, every record that was pending holds
    the three values of the entry of its hostname: its [ips], [reason]
    and [valid] are those of the entry, whatever they were before. *)
Theorem update_data_overwrites data_list results_dict (i : nat) data :
  data_list !! i = Some data ->
  pending data = true ->
  snd (update_data data_list results_dict) = None ->
  exists v data',
    results_get results_dict (name_of data) = Return (Some v)
    /\ fst (update_data data_list results_dict) !! i = Some data'
    /\ dict_get data' "ips" = ips v
    /\ dict_get data' "reason" = reason v
    /\ dict_get data' "valid" = valid v.
Proof.
  intros Hi Hp Hret.
  pose proof (update_data_returned _ _ Hret) as Hall.
  destruct (Forall2_lookup_l _ _ _ _ _ Hall Hi) as (data' & Hi' & Hitem).
  apply update_item_return_inv in Hitem. rewrite Hp in Hitem.
  destruct Hitem as (v & Hget & ->).
  exists v, (dict_update data v). split; [done|]. split; [done|].
  apply dict_update_written.
Qed.

Lemma update_data_overwrites_witness :
  exists v data',
    results_get (convert_results [("b.example.com", AnsTuple ("b.example.com", [], ["5.6.7.8"]))])
      (name_of Scenario2.rec_failed) = Return (Some v)
    /\ fst (update_data [Scenario2.rec_failed]
              (convert_results
                 [("b.example.com", AnsTuple ("b.example.com", [], ["5.6.7.8"]))])) !! 0
       = Some data'
    /\ dict_get data' "ips" = ips v
    /\ dict_get data' "reason" = reason v
    /\ dict_get data' "valid" = valid v.
Proof.
  apply (update_data_overwrites [Scenario2.rec_failed]
           (convert_results [("b.example.com", AnsTuple ("b.example.com", [], ["5.6.7.8"]))])
           0 Scenario2.rec_failed); reflexivity.
Defined.

End UpdateDataMore.

(** ** Records without a name *)

(** X11. A pending record with no [subdomain] column raises nothing in
    [filter_subdomain]: it is selected, and [None] stands for its name in
    the result, at its place. *)
Theorem filter_subdomain_missing_name (l1 l2 : list record) (data : record) :
  pending data = true ->
  data !! "subdomain" = None ->
  filter_subdomain (l1 ++ data :: l2) =
    (filter_subdomain l1 ++ PNone :: filter_subdomain l2)%list.
Proof.
  intros Hp Hmissing.
  rewrite filter_subdomain_app, filter_subdomain_cons, Hp.
  unfold name_of, dict_get. by rewrite Hmissing.
Qed.

Lemma filter_subdomain_missing_name_witness :
  filter_subdomain [Scenario.rec_a; Scenario2.rec_nameless; Scenario.rec_b] =
    [PStr "a.example.com"; PNone; PStr "b.example.com"].
Proof.
  apply (filter_subdomain_missing_name [Scenario.rec_a] [Scenario.rec_b]
           Scenario2.rec_nameless); reflexivity.
Defined.

(** ** The monitor loop *)

Lemma resolve_progress_loop_inv (qsize : nat -> nat) (total polls fuel n : nat) :
  resolve_progress_loop qsize total polls fuel = Some n ->
  exists k, n = S (polls + k) /\ k < fuel /\ qsize (polls + k) = total
            /\ forall j, j < k -> qsize (polls + j) <> total.
Proof.
  revert polls. induction fuel as [|fuel IH]; intros polls; [done|].
  cbn [resolve_progress_loop].
  destruct (Nat.eqb_spec (qsize polls) total) as [Heq|Hne].
  - intros [= <-]. exists 0. rewrite Nat.add_0_r.
    repeat split; [lia | done | lia].
  - intros (k & -> & Hk & Hhit & Hbefore)%IH.
    exists (S k). replace (polls + S k) with (S polls + k) by lia.
    repeat split; [lia | done |].
    intros [|j] Hj; [by rewrite Nat.add_0_r|].
    replace (polls + S j) with (S polls + j) by lia. apply Hbefore. lia.
Qed.

Lemma resolve_progress_loop_never (qsize : nat -> nat) (total polls fuel : nat) :
  (forall j, j < fuel -> qsize (polls + j) <> total) ->
  resolve_progress_loop qsize total polls fuel = None.
Proof.
  revert polls. induction fuel as [|fuel IH]; intros polls Hne; [done|].
  cbn [resolve_progress_loop].
  destruct (Nat.eqb_spec (qsize polls) total) as [Heq|_].
  - exfalso. apply (Hne 0); [lia|]. by rewrite Nat.add_0_r.
  - apply IH. intros j Hj. replace (S polls + j) with (polls + S j) by lia.
    apply Hne. lia.
Qed.

(** X12. The monitor loop ends at the first poll that sees the queue at
    [total]: when poll number [k] is the first such poll, the loop makes
    [k + 1] polls and ends, and after [k] polls it is still running. *)
Theorem resolve_progress_ends_at_first_hit (qsize : nat -> nat) (total k fuel : nat) :
  (forall j, j < k -> qsize j <> total) ->
  qsize k = total ->
  resolve_progress qsize total (S k + fuel) = Some (S k)
  /\ resolve_progress qsize total k = None.
Proof.
  intros Hbefore Hhit. unfold resolve_progress. split.
  - by rewrite (resolve_progress_loop_first_hit qsize total k fuel 0).
  - by apply resolve_progress_loop_never.
Qed.

Lemma resolve_progress_ends_at_first_hit_witness :
  resolve_progress Scenario2.growing_queue 3 (4 + 10) = Some 4
  /\ resolve_progress Scenario2.growing_queue 3 3 = None.
Proof.
  apply (resolve_progress_ends_at_first_hit Scenario2.growing_queue 3 3 10).
  - unfold Scenario2.growing_queue. lia.
  - reflexivity.
Defined.

(** X13. The monitor loop never ends early: when it ends after [n] polls,
    the last poll saw the queue at [total] and no poll before it did. *)
Theorem resolve_progress_ends_only_at_total (qsize : nat -> nat) (total fuel n : nat) :
  resolve_progress qsize total fuel = Some n ->
  exists k, n = S k /\ k < fuel /\ qsize k = total
            /\ forall j, j < k -> qsize j <> total.
Proof.
  unfold resolve_progress. intros (k & -> & Hk & Hhit & Hbefore)%resolve_progress_loop_inv.
  exists k. by repeat split.
Qed.

Lemma resolve_progress_ends_only_at_total_witness :
  exists k, 4 = S k /\ k < 9 /\ Scenario2.growing_queue k = 3
            /\ forall j, j < k -> Scenario2.growing_queue j <> 3.
Proof.
  apply (resolve_progress_ends_only_at_total Scenario2.growing_queue 3 9 4).
  reflexivity.
Defined.

(** X14. The test of the monitor loop is [done == total], not
    [done >= total]: when no poll sees the queue at exactly [total], as
    when the queue already holds more than [total] items, the loop does
    not end, however long it runs. *)
Theorem resolve_progress_spins (qsize : nat -> nat) (total : nat) :
  (forall j, qsize j <> total) ->
  forall fuel, resolve_progress qsize total fuel = None.
Proof.
  intros Hne fuel. unfold resolve_progress.
  apply resolve_progress_loop_never. intros j _. apply Hne.
Qed.

Lemma resolve_progress_spins_witness :
  resolve_progress (fun _ => 5) 3 1000 = None.
Proof.
  apply (resolve_progress_spins (fun _ => 5) 3). intros j. discriminate.
Defined.

(** ** The queue and the trace of a batch *)

Section Batch.

Variable gethostbyname_ex : string -> py_result host_tuple.

Lemma aio_query_world (hostname : string) (w : world) :
  aio_query gethostbyname_ex hostname w =
    (Return (hostname, answer_of gethostbyname_ex hostname),
     {| pr_queue := (pr_queue w ++ [1%Z])%list;
        events := (events w ++ failure_logs gethostbyname_ex [hostname])%list |}).
Proof.
  unfold aio_query, bind, answer_of, failure_logs. rewrite aiodns_query_a_run.
  cbn [flat_map]. destruct (gethostbyname_ex hostname) as [t|e]; simpl.
  - by rewrite app_nil_r.
  - reflexivity.
Qed.

Lemma failure_logs_cons (h : string) (rest : list string) :
  failure_logs gethostbyname_ex (h :: rest) =
  (failure_logs gethostbyname_ex [h] ++ failure_logs gethostbyname_ex rest)%list.
Proof. unfold failure_logs. cbn [flat_map]. by rewrite app_nil_r. Qed.

Lemma pool_map_aio_query_world (subdomain_list : list string) (w : world) :
  pool_map (aio_query gethostbyname_ex) subdomain_list w =
    (Return (map (fun h => (h, answer_of gethostbyname_ex h)) subdomain_list),
     {| pr_queue := (pr_queue w ++ repeat 1%Z (List.length subdomain_list))%list;
        events := (events w ++ failure_logs gethostbyname_ex subdomain_list)%list |}).
Proof.
  revert w. induction subdomain_list as [|h rest IH]; intros w.
  - destruct w as [q evs]. simpl. unfold ret. by rewrite !app_nil_r.
  - cbn [pool_map]. unfold bind at 1. rewrite aio_query_world.
    unfold bind at 1. rewrite IH. unfold ret. cbn [pr_queue events map List.length repeat].
    rewrite (failure_logs_cons h rest), <- !app_assoc. reflexivity.
Qed.

(** X15. A query with progress returns what [aiodns_query_a] returns, for
    a success and for a failure alike, and puts one item on the progress
    queue, after the query; it raises nothing and leaves the trace of the
    query as it is. *)
Theorem aio_query_advances_once (hostname : string) (w : world) :
  exists (result : string * answer) (w1 w' : world),
    aiodns_query_a gethostbyname_ex hostname w = (Return result, w1)
    /\ aio_query gethostbyname_ex hostname w = (Return result, w')
    /\ pr_queue w' = (pr_queue w1 ++ [1%Z])%list
    /\ List.length (pr_queue w') = S (List.length (pr_queue w))
    /\ events w' = events w1.
Proof.
  unfold aio_query, bind. rewrite aiodns_query_a_run.
  destruct (gethostbyname_ex hostname) as [t|e]; do 3 eexists;
    (split; [reflexivity|]); (split; [reflexivity|]); simpl;
    rewrite length_app; simpl; repeat split; lia.
Qed.

Lemma aio_resolve_world
    (subdomain_list : list string) (process_num coroutine_num : Z) (w : world) :
  aio_resolve gethostbyname_ex subdomain_list process_num coroutine_num w =
    (Return (map (fun h => (h, answer_of gethostbyname_ex h)) subdomain_list),
     {| pr_queue := repeat 1%Z (List.length subdomain_list);
        events :=
          (events w
             ++ [EvMonitorStarted (List.length subdomain_list);
                 EvPoolStarted process_num coroutine_num]
             ++ failure_logs gethostbyname_ex subdomain_list
             ++ [EvPoolClosed])%list |}).
Proof.
  unfold aio_resolve, with_pool, bind, new_queue, emit, ret.
  cbn [pr_queue events snd].
  rewrite pool_map_aio_query_world. cbn [pr_queue events snd app].
  by rewrite <- !app_assoc.
Qed.

Lemma run_tasks_aio_query_world (l : list string) (finished : list nat) (w : world) :
  run_tasks (aio_query gethostbyname_ex) l finished w =
    (Return (omap (fun i => (fun h => (i, (h, answer_of gethostbyname_ex h))) <$> l !! i)
               finished),
     {| pr_queue :=
          (pr_queue w ++ repeat 1%Z (List.length (in_order_of l finished)))%list;
        events :=
          (events w ++ failure_logs gethostbyname_ex (in_order_of l finished))%list |}).
Proof.
  revert w. induction finished as [|i rest IH]; intros w.
  - destruct w as [q evs]. simpl. unfold ret. by rewrite !app_nil_r.
  - cbn [run_tasks omap list_omap in_order_of]. fold (in_order_of l rest).
    destruct (l !! i) as [h|] eqn:Hi; cbn [fmap option_fmap option_map].
    + unfold bind at 1. rewrite aio_query_world.
      unfold bind at 1. rewrite IH. unfold ret.
      cbn [pr_queue events List.length repeat].
      rewrite (failure_logs_cons h (in_order_of l rest)), <- !app_assoc. reflexivity.
    + apply IH.
Qed.

Lemma result_at_done (l : list string) (finished : list nat) (i : nat) (h : string) :
  i ∈ finished ->
  l !! i = Some h ->
  result_at
    (omap (fun i => (fun h => (i, (h, answer_of gethostbyname_ex h))) <$> l !! i) finished)
    i = Some (h, answer_of gethostbyname_ex h).
Proof.
  intros Hin Hi. induction finished as [|j rest IH]; [by apply elem_of_nil in Hin|].
  cbn [omap list_omap].
  destruct (decide (j = i)) as [->|Hne].
  - rewrite Hi. cbn [fmap option_fmap option_map]. unfold result_at. cbn [List.find fst].
    by rewrite Nat.eqb_refl.
  - apply elem_of_cons in Hin as [Heq|Hin]; [congruence|].
    destruct (l !! j) as [h'|]; cbn [fmap option_fmap option_map]; [|by apply IH].
    unfold result_at. cbn [List.find fst].
    apply Nat.eqb_neq in Hne. rewrite Hne. by apply IH.
Qed.

Lemma omap_seq_lookup {A B} (f : nat -> option B) (g : A -> B) (l : list A) (s : nat) :
  (forall i x, l !! i = Some x -> f (s + i) = Some (g x)) ->
  omap f (seq s (List.length l)) = map g l.
Proof.
  revert s. induction l as [|x l IH]; intros s Hf; [reflexivity|].
  cbn [List.length seq omap list_omap map].
  rewrite <- (Nat.add_0_r s) at 1. rewrite (Hf 0 x eq_refl). f_equal.
  apply IH. intros i y Hi. replace (S s + i) with (s + S i) by lia. by apply Hf.
Qed.

Lemma in_order_of_seq (l : list string) : in_order_of l (seq 0 (List.length l)) = l.
Proof.
  unfold in_order_of. rewrite (omap_seq_lookup _ id l 0); [apply map_id|]. done.
Qed.

Lemma in_order_of_perm (l : list string) (finished : list nat) :
  finished ≡ₚ seq 0 (List.length l) -> in_order_of l finished ≡ₚ l.
Proof.
  intros Hperm. unfold in_order_of. rewrite Hperm. fold (in_order_of l (seq 0 (List.length l))).
  by rewrite in_order_of_seq.
Qed.

Lemma aio_resolve_concurrent_world
    (subdomain_list : list string) (process_num coroutine_num : Z) (w : world)
    (finished : list nat) :
  finished ≡ₚ seq 0 (List.length subdomain_list) ->
  aio_resolve_concurrent gethostbyname_ex finished subdomain_list process_num coroutine_num w =
    (Return (map (fun h => (h, answer_of gethostbyname_ex h)) subdomain_list),
     {| pr_queue := repeat 1%Z (List.length subdomain_list);
        events :=
          (events w
             ++ [EvMonitorStarted (List.length subdomain_list);
                 EvPoolStarted process_num coroutine_num]
             ++ failure_logs gethostbyname_ex (in_order_of subdomain_list finished)
             ++ [EvPoolClosed])%list |}).
Proof.
  intros Hperm.
  unfold aio_resolve_concurrent, with_pool, pool_map_concurrent, bind, new_queue, emit, ret.
  cbn [pr_queue events snd].
  rewrite run_tasks_aio_query_world. cbn [pr_queue events snd app].
  rewrite (Permutation_length (in_order_of_perm _ _ Hperm)).
  rewrite <- !app_assoc. f_equal. f_equal.
  apply (omap_seq_lookup _ (fun h => (h, answer_of gethostbyname_ex h)) subdomain_list 0).
  intros i h Hi. apply result_at_done; [|done].
  rewrite Hperm. apply list_elem_of_In, in_seq. apply lookup_lt_Some in Hi. simpl. lia.
Qed.

(** X16. The whole effect of a batch, for every list of hostnames and
    every order in which the queries get done. The results come back in
    the order of the list. The progress queue is a new one and holds one
    item per hostname when the batch is done, whatever it held before.
    The trace grows by: the start of the monitor loop with the number of
    hostnames as total, the start of the pool with the two numbers given,
    the lines logged at level TRACE, the end of the pool. The lines
    logged are one for each failed hostname, in the order in which the
    queries get done, so that they are the lines of the failed hostnames
    of the list up to their order. When the queries get done in the order
    of the list, this is [aio_resolve]. *)
Theorem aio_resolve_effect
    (subdomain_list : list string) (process_num coroutine_num : Z) (w : world)
    (finished : list nat) :
  finished ≡ₚ seq 0 (List.length subdomain_list) ->
  (exists (w' : world) (logs : list event),
     aio_resolve_concurrent gethostbyname_ex finished subdomain_list
       process_num coroutine_num w =
       (Return (map (fun h => (h, answer_of gethostbyname_ex h)) subdomain_list), w')
     /\ pr_queue w' = repeat 1%Z (List.length subdomain_list)
     /\ events w' =
          (events w
             ++ [EvMonitorStarted (List.length subdomain_list);
                 EvPoolStarted process_num coroutine_num]
             ++ logs ++ [EvPoolClosed])%list
     /\ logs = failure_logs gethostbyname_ex (in_order_of subdomain_list finished)
     /\ logs ≡ₚ failure_logs gethostbyname_ex subdomain_list)
  /\ aio_resolve_concurrent gethostbyname_ex (seq 0 (List.length subdomain_list))
       subdomain_list process_num coroutine_num w =
     aio_resolve gethostbyname_ex subdomain_list process_num coroutine_num w.
Proof.
  intros Hperm. split.
  - eexists _, _. split; [by apply aio_resolve_concurrent_world|].
    cbn [pr_queue events]. repeat split.
    unfold failure_logs. apply Permutation_flat_map. by apply in_order_of_perm.
  - rewrite aio_resolve_concurrent_world by done.
    by rewrite in_order_of_seq, aio_resolve_world.
Qed.

(** X17. The total handed to the monitor loop is the number of items on
    the progress queue when the batch is done, also when hostnames occur
    twice or the queue held items before: a poll made after the batch
    ends the loop at once. *)
Theorem monitor_ends_after_batch
    (subdomain_list : list string) (process_num coroutine_num : Z) (w : world)
    (fuel : nat) :
  let w' := snd (aio_resolve gethostbyname_ex subdomain_list process_num coroutine_num w) in
  In (EvMonitorStarted (List.length (pr_queue w'))) (events w')
  /\ resolve_progress (fun _ => List.length (pr_queue w'))
       (List.length subdomain_list) (S fuel) = Some 1.
Proof.
  intros w'. subst w'. rewrite aio_resolve_world. cbn [snd pr_queue events].
  rewrite repeat_length. split.
  - apply in_or_app. right. by left.
  - unfold resolve_progress. simpl. by rewrite Nat.eqb_refl.
Qed.

End Batch.

Lemma aio_resolve_effect_witness :
  [1; 0] ≡ₚ seq 0 2
  /\ fst (aio_resolve_concurrent Scenario3.resolver_failing [1; 0]
            ["b.example.com"; "c.example.com"] 4 64 Scenario.world0) =
     Return
       [ ("b.example.com",
          AnsExc (MkExc GaiError [PInt (-2); PStr "Name or service not known"]));
         ("c.example.com", AnsExc (MkExc SocketTimeout [PStr "timed out"])) ]
  /\ events (snd (aio_resolve_concurrent Scenario3.resolver_failing [1; 0]
                    ["b.example.com"; "c.example.com"] 4 64 Scenario.world0)) =
     [ EvMonitorStarted 2; EvPoolStarted 4 64;
       EvLog "TRACE" [PStr "timed out"];
       EvLog "TRACE" [PInt (-2); PStr "Name or service not known"];
       EvPoolClosed ].
Proof.
  assert ([1; 0] ≡ₚ seq 0 2) as Hperm by apply perm_swap.
  split; [exact Hperm|].
  destruct (proj1 (aio_resolve_effect Scenario3.resolver_failing
                     ["b.example.com"; "c.example.com"] 4 64 Scenario.world0 [1; 0] Hperm))
    as (w' & logs & Hrun & _ & Hev & Hlogs & _).
  rewrite Hrun. cbn [fst snd]. split; [reflexivity|].
  rewrite Hev, Hlogs. reflexivity.
Defined.

(** ** The steps of [bulk_resolve] chained *)

Section BulkResolve.

Variable gethostbyname_ex : string -> py_result host_tuple.

Implicit Types (data : record) (data_list : list record) (hosts : list string).

(** In the map built from the results of a batch, a lookup that succeeds
    gives the entry of the answer of that hostname. *)
Lemma convert_results_batch_lookup hosts (h : string) (v : value_dict) :
  convert_results (map (fun h => (h, answer_of gethostbyname_ex h)) hosts) !! h = Some v ->
  v = value_of_answer (answer_of gethostbyname_ex h).
Proof.
  intros (a & Hin & ->)%convert_results_inv.
  apply list_elem_of_In, in_map_iff in Hin as (h' & Heq & _).
  by injection Heq as -> ->.
Qed.

Lemma convert_results_batch_found hosts (h : string) :
  h ∈ hosts ->
  convert_results (map (fun h => (h, answer_of gethostbyname_ex h)) hosts) !! h =
    Some (value_of_answer (answer_of gethostbyname_ex h)).
Proof.
  intros Hin.
  assert (is_Some (convert_results
                     (map (fun h => (h, answer_of gethostbyname_ex h)) hosts) !! h))
    as [v Hv].
  { apply elem_of_dom. unfold convert_results. rewrite convert_fold_dom.
    rewrite map_map. simpl. rewrite map_id. set_solver. }
  rewrite Hv. f_equal. by eapply convert_results_batch_lookup.
Qed.

Lemma pending_name_selected data data_list :
  data ∈ data_list -> pending data = true -> name_of data ∈ filter_subdomain data_list.
Proof.
  intros Hin Hp. rewrite filter_subdomain_map_filter.
  apply list_elem_of_In, in_map, filter_In. split; [by apply list_elem_of_In | done].
Qed.

Lemma results_get_str (results_dict : gmap string value_dict) (name : pyval) (v : value_dict) :
  results_get results_dict name = Return (Some v) ->
  exists h, name = PStr h /\ results_dict !! h = Some v.
Proof.
  destruct name as [|z|h|l]; simpl; try done.
  intros Heq. exists h. split; [done | congruence].
Qed.

Lemma bulk_steps data_list hosts :
  filter_subdomain data_list = map PStr hosts ->
  let results_dict :=
    convert_results (map (fun h => (h, answer_of gethostbyname_ex h)) hosts) in
  snd (update_data data_list results_dict) = None
  /\ Forall2
       (fun data data' =>
          if pending data
          then exists h, name_of data = PStr h
                         /\ data' = dict_update data
                                      (value_of_answer (answer_of gethostbyname_ex h))
          else data' = data)
       data_list (fst (update_data data_list results_dict)).
Proof.
  intros Hsel results_dict.
  assert (snd (update_data data_list results_dict) = None) as Hret.
  { apply update_data_no_raise. intros data Hin Hp.
    pose proof (pending_name_selected _ _ Hin Hp) as Hname.
    rewrite Hsel in Hname.
    apply list_elem_of_In, in_map_iff in Hname as (h & Hh & Hhost).
    exists (value_of_answer (answer_of gethostbyname_ex h)).
    rewrite <- Hh. cbn [results_get]. f_equal.
    apply convert_results_batch_found. by apply list_elem_of_In. }
  split; [exact Hret|].
  eapply Forall2_impl; [by apply update_data_returned|].
  intros data data' Hitem. apply update_item_return_inv in Hitem.
  destruct (pending data); [|done].
  destruct Hitem as (v & Hget & ->).
  apply results_get_str in Hget as (h & Hname & Hlook).
  exists h. split; [done|]. f_equal. by eapply convert_results_batch_lookup.
Qed.


(** X19. What a run of the steps of [bulk_resolve] leaves in a record
    that was pending. If its hostname resolved, [reason] and [valid] are
    [None], and the record is populated exactly when at least one address
    came back. If the query ended in an exception, [valid] is 0, [reason]
    is the text of the [args] for an instance of [Exception] and [None]
    otherwise, and the record is still pending, so that the next run
    queries it again. *)
Theorem bulk_resolve_outcome data_list hosts (process_num coroutine_num : Z)
    (w w' : world) (results : list (string * answer)) (i : nat) data (h : string) :
  filter_subdomain data_list = map PStr hosts ->
  aio_resolve gethostbyname_ex hosts process_num coroutine_num w = (Return results, w') ->
  data_list !! i = Some data ->
  pending data = true ->
  name_of data = PStr h ->
  exists data',
    fst (update_data data_list (convert_results results)) !! i = Some data'
    /\ match gethostbyname_ex h with
       | Return (_, _, addrs) =>
           dict_get data' "reason" = PNone
           /\ dict_get data' "valid" = PNone
           /\ (pending data' = false <-> addrs <> [])
       | Raise e =>
           pending data' = true
           /\ dict_get data' "valid" = PInt 0
           /\ dict_get data' "reason" =
                if isinstance_Exception (exc_cls e)
                then PStr (py_str_tuple (exc_args e)) else PNone
       end.
Proof.
  intros Hsel Hrun Hi Hp Hname. rewrite aio_resolve_world in Hrun.
  assert (results = map (fun h => (h, answer_of gethostbyname_ex h)) hosts) as ->
    by congruence.
  destruct (bulk_steps data_list hosts Hsel) as [_ Hall].
  destruct (Forall2_lookup_l _ _ _ _ _ Hall Hi) as (data' & Hi' & Hstep).
  rewrite Hp in Hstep. destruct Hstep as (h' & Hname' & ->).
  assert (h' = h) as -> by congruence.
  eexists. split; [exact Hi'|].
  destruct (dict_update_written data (value_of_answer (answer_of gethostbyname_ex h)))
    as (Hips & Hreason & Hvalid).
  unfold pending. rewrite Hips, Hreason, Hvalid.
  unfold answer_of. destruct (gethostbyname_ex h) as [[[name aliases] addrs]|e].
  - unfold value_of_answer. cbn [ips reason valid]. rewrite slice_repr_list.
    split; [done|]. split; [done|]. cbn [truthy].
    destruct addrs as [|x rest].
    + simpl. split; [discriminate | done].
    + rewrite join_comma_repr_nonempty by done. simpl. split; [done | reflexivity].
  - unfold value_of_answer. by destruct (isinstance_Exception (exc_cls e)).
Qed.

End BulkResolve.


Lemma bulk_resolve_outcome_witness :
  exists data',
    fst (update_data [Scenario.rec_a; Scenario.rec_resolved; Scenario.rec_b]
           (convert_results
              (map (fun h => (h, answer_of Scenario.resolver_a h))
                 ["a.example.com"; "b.example.com"]))) !! 2 = Some data'
    /\ pending data' = true
    /\ dict_get data' "valid" = PInt 0
    /\ dict_get data' "reason" = PStr "(-2, 'Name or service not known')".
Proof.
  eapply (bulk_resolve_outcome Scenario.resolver_a
            [Scenario.rec_a; Scenario.rec_resolved; Scenario.rec_b]
            ["a.example.com"; "b.example.com"] 4 64 Scenario.world0 _ _ 2
            Scenario.rec_b "b.example.com").
  - reflexivity.
  - apply aio_resolve_world.
  - reflexivity.
  - reflexivity.
  - reflexivity.
Defined.

(** ** The order of the outcomes *)

Lemma convert_fold_union (result_list : list (string * answer))
    (result_dict : gmap string value_dict) :
  fold_left convert_step result_list result_dict =
  convert_results result_list ∪ result_dict.
Proof.
  unfold convert_results.
  revert result_dict. induction result_list as [|[h a] rest IH]; intros result_dict.
  - simpl. by rewrite (left_id_L ∅ (∪)).
  - cbn [fold_left]. rewrite (IH (convert_step result_dict (h, a))).
    rewrite (IH (convert_step ∅ (h, a))), !convert_step_insert.
    rewrite insert_empty, <- (assoc_L (∪)). f_equal.
    by rewrite <- insert_union_singleton_l.
Qed.

Lemma convert_results_lookup_nodup (result_list : list (string * answer))
    (hostname : string) (a : answer) :
  NoDup (map fst result_list) ->
  (hostname, a) ∈ result_list ->
  convert_results result_list !! hostname = Some (value_of_answer a).
Proof.
  intros Hnd Hin. apply list_elem_of_split in Hin as (l1 & l2 & ->).
  apply convert_results_last.
  rewrite map_app in Hnd. apply NoDup_app in Hnd as (_ & _ & Hnd).
  simpl in Hnd. by apply NoDup_cons in Hnd as [Hnot _].
Qed.

(** X20. The order of the outcomes does not matter when no hostname
    occurs twice: two outcome lists that are permutations of each other
    give the same map. *)
Theorem convert_results_order (l1 l2 : list (string * answer)) :
  NoDup (map fst l1) ->
  l1 ≡ₚ l2 ->
  convert_results l1 = convert_results l2.
Proof.
  intros Hnd1 Hperm.
  assert (map fst l1 ≡ₚ map fst l2) as Hfst by (by apply Permutation_map).
  assert (NoDup (map fst l2)) as Hnd2 by (by rewrite <- Hfst).
  assert (forall l : list (string * answer),
            dom (convert_results l) = (list_to_set (map fst l) : gset string)) as Hdom.
  { intros l. unfold convert_results. rewrite convert_fold_dom. set_solver. }
  apply map_eq. intros h.
  destruct (convert_results l1 !! h) as [e|] eqn:Hl1.
  - apply convert_results_inv in Hl1 as (a & Hin & ->).
    symmetry. apply convert_results_lookup_nodup; [done|]. by rewrite <- Hperm.
  - symmetry. apply not_elem_of_dom. apply not_elem_of_dom in Hl1.
    rewrite Hdom, elem_of_list_to_set in Hl1 |- *. by rewrite <- Hfst.
Qed.

Lemma convert_results_order_witness :
  convert_results Scenario.outcomes_ab = convert_results (rev Scenario.outcomes_ab).
Proof.
  apply (convert_results_order Scenario.outcomes_ab (rev Scenario.outcomes_ab)).
  - simpl. apply NoDup_cons. split.
    + intros H. apply elem_of_cons in H as [H|H]; [discriminate | by apply elem_of_nil in H].
    + apply NoDup_cons. split; [apply not_elem_of_nil | apply NoDup_nil_2].
  - apply Permutation_rev.
Defined.

(** X21. Converting two outcome lists one after the other is converting
    each and joining the maps, the entries of the later list winning over
    those of the earlier one for a hostname in both. *)
Theorem convert_results_app (l1 l2 : list (string * answer)) :
  convert_results (l1 ++ l2) = convert_results l2 ∪ convert_results l1.
Proof.
  unfold convert_results at 1. rewrite fold_left_app.
  fold (convert_results l1). apply convert_fold_union.
Qed.
